(** * Wallet-Service: the ledger transfer engine over its relational store

    A shallow embedding of the TypeScript service

      - [src/db-access/asset-type.db.ts], [user.db.ts], [wallet.db.ts],
        [transaction.db.ts]  (the Prisma data-access classes),
      - [src/services/wallet.service.ts], [transaction.service.ts],
      - the three POST handlers of [src/routes]

    together with the facts proved about it.

    Modelling conventions.

    - The database is a record of four tables, each a list of rows in
      insertion order.  The constraints of the SQL migrations (primary keys,
      the unique index on (userId, assetTypeId), the foreign keys and the
      DECIMAL(18,6) range) are checked where the database checks them: on
      insert and on update.
    - A [Promise] is a computation over the world (the database plus the
      source of fresh row ids) that resolves ([Ok]) or rejects ([Err]).
      [prisma.$transaction] runs its callback and, when the callback rejects,
      restores the tables it started from.
    - [balance] and [amount] are counted in units of 10^-6, the scale of the
      DECIMAL(18,6) columns, as integers.  The JavaScript [number] that
      carries an amount through the service, and the [Number(balance)] of
      the balance checks, are taken to denote such a value exactly; the
      rounding of binary floating point is outside this development.
    - Requests run one after the other: the interleaving of concurrent
      database transactions is not modelled.
    - Time stamps ([createdAt], [updatedAt]) are left out: no code below
      reads them. *)

From Stdlib Require Import ZArith List String Ascii Bool Lia DecimalString.
From Stdlib Require Import Sorted Permutation.
Import ListNotations.
Local Open Scope string_scope.
Local Open Scope Z_scope.

(** [a === b] on strings. *)
Notation "a === b" := (String.eqb a b) (at level 70, no associativity).

(** ** Data model (prisma/migrations) *)

Inductive TransactionType := DEPOSIT | WITHDRAWAL | TRANSFER.
Inductive TransactionStatus := PENDING | COMPLETED | FAILED | REVERSED.

Record User := mkUser
  { user_id : string;
    user_email : string;
    user_name : string }.

Record AssetType := mkAssetType
  { assetType_id : string;
    assetType_name : string;
    assetType_description : option string }.

Record Wallet := mkWallet
  { wallet_id : string;
    wallet_userId : string;
    wallet_assetTypeId : string;
    wallet_balance : Z }.

(** The JSON [metadata] column.  The service writes either nothing or the
    object [{ idempotencyKey }]. *)
Record Metadata := mkMetadata
  { idempotencyKey : string }.

Record Transaction := mkTransaction
  { transaction_id : string;
    senderWalletId : string;
    receiverWalletId : string;
    amount : Z;
    type_ : TransactionType;
    status : TransactionStatus;
    description : option string;
    metadata : option Metadata }.

Record Store := mkStore
  { users : list User;
    assetTypes : list AssetType;
    wallets : list Wallet;
    transactions : list Transaction }.

(** The world a request runs in: the database and the generator of row ids
    ([uuids w 0] is the next one to be handed out). *)
Record World := mkWorld
  { store : Store;
    uuids : nat -> string }.

Definition set_wallets (s : Store) (ws : list Wallet) : Store :=
  mkStore (users s) (assetTypes s) ws (transactions s).

Definition set_transactions (s : Store) (ts : list Transaction) : Store :=
  mkStore (users s) (assetTypes s) (wallets s) ts.

Definition set_balance (x : Wallet) (b : Z) : Wallet :=
  mkWallet (wallet_id x) (wallet_userId x) (wallet_assetTypeId x) b.

Definition set_status (t : Transaction) (st : TransactionStatus) : Transaction :=
  mkTransaction (transaction_id t) (senderWalletId t) (receiverWalletId t)
    (amount t) (type_ t) st (description t) (metadata t).

(** ** Failures *)

Inductive PrismaErrorCode :=
| RecordNotFound              (* P2025: update of a row that does not exist *)
| UniqueConstraintFailed      (* P2002 *)
| ForeignKeyConstraintFailed  (* P2003 *)
| ValueOutOfRange.            (* P2020: numeric field overflow *)

Inductive Exception :=
| Error (message : string)                    (* throw new Error(message) *)
| PrismaClientError (code : PrismaErrorCode).

Inductive Result (A : Type) :=
| Ok (a : A)
| Err (e : Exception).
Arguments Ok {A} a.
Arguments Err {A} e.

(** ** Promises over the world *)

Definition Promise (A : Type) : Type := World -> Result A * World.

Definition resolve {A} (a : A) : Promise A := fun w => (Ok a, w).
Definition throw {A} (e : Exception) : Promise A := fun w => (Err e, w).

Definition await {A B} (m : Promise A) (k : A -> Promise B) : Promise B :=
  fun w =>
    match m w with
    | (Ok a, w') => k a w'
    | (Err e, w') => (Err e, w')
    end.

Notation "x <- m ;; k" := (await m (fun x => k))
  (at level 61, m at next level, right associativity).
Notation "m ;;; k" := (await m (fun _ => k))
  (at level 61, right associativity).

Definition readStore : Promise Store := fun w => (Ok (store w), w).

Definition writeStore (s : Store) : Promise unit :=
  fun w => (Ok tt, mkWorld s (uuids w)).

(** The id of a new row.  The schema file that declares how ids are made is
    not among the sources; the migrations only say that [id] is a TEXT
    primary key.  Ids are taken from the generator the world carries, and
    nothing is assumed about it: an id that is already in use makes the
    insert fail on the primary key. *)
Definition uuid : Promise string :=
  fun w => (Ok (uuids w 0%nat), mkWorld (store w) (fun n => uuids w (S n))).

(** [prisma.$transaction(async (tx) => body)]: all of [body]'s writes, or
    none of them. *)
Definition transaction {A} (body : Promise A) : Promise A :=
  fun w =>
    match body w with
    | (Ok a, w') => (Ok a, w')
    | (Err e, w') => (Err e, mkWorld (store w) (uuids w'))
    end.

(** ** JavaScript values *)

(** Truthiness of an optional string: [undefined] and the empty string are
    falsy. *)
Definition truthy (v : option string) : bool :=
  match v with
  | Some s => negb (s === EmptyString)
  | None => false
  end.

(** DECIMAL(18,6): at most 18 digits, counted in units of 10^-6. *)
Definition DECIMAL_LIMIT : Z := 10 ^ 18.

Definition inDecimalRange (v : Z) : bool :=
  (- DECIMAL_LIMIT <? v) && (v <? DECIMAL_LIMIT).

Fixpoint dropZeros (digits : list ascii) : list ascii :=
  match digits with
  | "0"%char :: rest => dropZeros rest
  | _ => digits
  end.

Definition digitsOf (n : Z) : string :=
  NilZero.string_of_uint (N.to_uint (Z.to_N n)).

Definition padLeft (width : nat) (s : string) : string :=
  string_of_list_ascii (repeat "0"%char (width - String.length s)) ++ s.

(** The fractional digits of [r] millionths, without trailing zeros. *)
Definition fractionDigits (r : Z) : string :=
  string_of_list_ascii
    (rev (dropZeros (rev (list_ascii_of_string (padLeft 6 (digitsOf r)))))).

(** [`${amount}`] for an amount of [v] millionths: [100000000] prints as
    ["100"], [1500000] as ["1.5"]. *)
Definition numberToString (v : Z) : string :=
  let a := Z.abs v in
  (if v <? 0 then "-" else EmptyString)
  ++ digitsOf (a / 1000000)
  ++ (if a mod 1000000 =? 0 then EmptyString
      else "." ++ fractionDigits (a mod 1000000)).

(** ** Rows of a table *)

(** Replace the first row that satisfies [p]. *)
Fixpoint updateFirst {A} (p : A -> bool) (f : A -> A) (rows : list A) : list A :=
  match rows with
  | [] => []
  | r :: rest => if p r then f r :: rest else r :: updateFirst p f rest
  end.

(** [orderBy: { key: "asc" }] and [Array.prototype.sort] on strings: a stable
    insertion sort on a string key, by code units.  The database is taken to
    order ids the way JavaScript does. *)
Fixpoint insertBy {A} (key : A -> string) (x : A) (sorted : list A) : list A :=
  match sorted with
  | [] => [x]
  | y :: rest =>
      if (key x <=? key y)%string then x :: y :: rest
      else y :: insertBy key x rest
  end.

Fixpoint sortBy {A} (key : A -> string) (rows : list A) : list A :=
  match rows with
  | [] => []
  | x :: rest => insertBy key x (sortBy key rest)
  end.

(** [ids.sort()] *)
Definition sort (ids : list string) : list string := sortBy (fun s => s) ids.

(** ** The Prisma client over the schema of the migrations

    The calls the data-access classes make, with what the database does for
    them.  [findUnique] and [findFirst] return the first matching row,
    [update] rejects when no row matches, inserts check the primary key,
    the unique index, the foreign keys and the DECIMAL(18,6) range. *)

Module Prisma.

Definition walletHasId (id : string) (x : Wallet) : bool := wallet_id x === id.

Definition walletHasUserAndAssetType (userId assetTypeId : string) (x : Wallet) : bool :=
  (wallet_userId x === userId) && (wallet_assetTypeId x === assetTypeId).

Definition transactionHasId (id : string) (t : Transaction) : bool :=
  transaction_id t === id.

(** [metadata: { path: ["idempotencyKey"], equals: key }] *)
Definition hasIdempotencyKey (key : string) (t : Transaction) : bool :=
  match metadata t with
  | Some m => idempotencyKey m === key
  | None => false
  end.

(** [assetType.findUnique({ where: { name } })] *)
Definition assetType_findUnique (name : string) : Promise (option AssetType) :=
  s <- readStore ;;
  resolve (find (fun a => assetType_name a === name) (assetTypes s)).

(** [user.findUnique({ where: { email } })] *)
Definition user_findUnique (email : string) : Promise (option User) :=
  s <- readStore ;;
  resolve (find (fun u => user_email u === email) (users s)).

(** [wallet.findUnique({ where: { id } })] *)
Definition wallet_findUnique (id : string) : Promise (option Wallet) :=
  s <- readStore ;;
  resolve (find (walletHasId id) (wallets s)).

(** [wallet.findUnique({ where: { userId_assetTypeId: { userId, assetTypeId } } })] *)
Definition wallet_findUnique_userId_assetTypeId (userId assetTypeId : string)
  : Promise (option Wallet) :=
  s <- readStore ;;
  resolve (find (walletHasUserAndAssetType userId assetTypeId) (wallets s)).

(** The insert of a wallet row. *)
Definition wallet_create (userId assetTypeId : string) (balance : Z) : Promise Wallet :=
  id <- uuid ;;
  s <- readStore ;;
  if existsb (walletHasId id) (wallets s)
     || existsb (walletHasUserAndAssetType userId assetTypeId) (wallets s)
  then throw (PrismaClientError UniqueConstraintFailed)
  else if negb (existsb (fun u => user_id u === userId) (users s))
          || negb (existsb (fun a => assetType_id a === assetTypeId) (assetTypes s))
  then throw (PrismaClientError ForeignKeyConstraintFailed)
  else if negb (inDecimalRange balance)
  then throw (PrismaClientError ValueOutOfRange)
  else
    let x := mkWallet id userId assetTypeId balance in
    writeStore (set_wallets s (wallets s ++ [x])) ;;;
    resolve x.

(** [wallet.upsert({ where: { userId_assetTypeId }, update: {},
                     create: { userId, assetTypeId, balance } })] *)
Definition wallet_upsert (userId assetTypeId : string) (balance : Z) : Promise Wallet :=
  s <- readStore ;;
  match find (walletHasUserAndAssetType userId assetTypeId) (wallets s) with
  | Some x => resolve x
  | None => wallet_create userId assetTypeId balance
  end.

(** [wallet.findMany({ where: { id: { in: ids } }, orderBy: { id: "asc" } })] *)
Definition wallet_findMany (ids : list string) : Promise (list Wallet) :=
  s <- readStore ;;
  resolve
    (sortBy wallet_id
       (filter (fun x => existsb (String.eqb (wallet_id x)) ids) (wallets s))).

(** [wallet.update({ where: { id }, data: { balance: { increment: a } } })]
    with [newBalance b = b + a], and the same with [decrement]. *)
Definition wallet_update (id : string) (newBalance : Z -> Z) : Promise Wallet :=
  s <- readStore ;;
  match find (walletHasId id) (wallets s) with
  | None => throw (PrismaClientError RecordNotFound)
  | Some x =>
      let b := newBalance (wallet_balance x) in
      if inDecimalRange b then
        writeStore
          (set_wallets s
             (updateFirst (walletHasId id) (fun y => set_balance y b) (wallets s))) ;;;
        resolve (set_balance x b)
      else throw (PrismaClientError ValueOutOfRange)
  end.

(** [transaction.findFirst({ where: { metadata: { path, equals } } })] *)
Definition transaction_findFirst (key : string) : Promise (option Transaction) :=
  s <- readStore ;;
  resolve (find (hasIdempotencyKey key) (transactions s)).

(** [transaction.create({ data: { senderWalletId, receiverWalletId, amount,
                                   type, status, description, metadata } })] *)
Definition transaction_create (senderWalletId receiverWalletId : string)
    (amount : Z) (type : TransactionType) (status : TransactionStatus)
    (description : option string) (metadata : option Metadata)
  : Promise Transaction :=
  id <- uuid ;;
  s <- readStore ;;
  if existsb (transactionHasId id) (transactions s)
  then throw (PrismaClientError UniqueConstraintFailed)
  else if negb (existsb (walletHasId senderWalletId) (wallets s))
          || negb (existsb (walletHasId receiverWalletId) (wallets s))
  then throw (PrismaClientError ForeignKeyConstraintFailed)
  else if negb (inDecimalRange amount)
  then throw (PrismaClientError ValueOutOfRange)
  else
    let t :=
      mkTransaction id senderWalletId receiverWalletId amount type status
        description metadata in
    writeStore (set_transactions s (transactions s ++ [t])) ;;;
    resolve t.

(** [transaction.update({ where: { id }, data: { status } })] *)
Definition transaction_update (id : string) (st : TransactionStatus)
  : Promise Transaction :=
  s <- readStore ;;
  match find (transactionHasId id) (transactions s) with
  | None => throw (PrismaClientError RecordNotFound)
  | Some t =>
      writeStore
        (set_transactions s
           (updateFirst (transactionHasId id) (fun u => set_status u st)
              (transactions s))) ;;;
      resolve (set_status t st)
  end.

(** *** The read queries

    A query with [include] returns the row together with the rows it refers
    to.  The references are required relations (NOT NULL foreign keys); for
    a row that refers to nothing the client rejects the query. *)

Record WalletIncluded := mkWalletIncluded
  { included_wallet : Wallet;
    included_assetType : AssetType;
    included_user : option User }.   (* present when [user: true] is asked *)

Record TransactionIncluded := mkTransactionIncluded
  { included_transaction : Transaction;
    included_senderWallet : option WalletIncluded;
    included_receiverWallet : option WalletIncluded }.

Definition inconsistent {A} (field : string) : Promise A :=
  throw (Error ("Inconsistent query result: Field " ++ field
                ++ " is required to return data, got `null` instead.")).

(** [include: { assetType: true }], with [user: true] when [withUser]. *)
Definition included (withUser : bool) (x : Wallet) : Promise WalletIncluded :=
  s <- readStore ;;
  match find (fun a => assetType_id a === wallet_assetTypeId x) (assetTypes s) with
  | None => inconsistent "assetType"
  | Some a =>
      if withUser then
        match find (fun u => user_id u === wallet_userId x) (users s) with
        | None => inconsistent "user"
        | Some u => resolve (mkWalletIncluded x a (Some u))
        end
      else resolve (mkWalletIncluded x a None)
  end.

Fixpoint forEach {A B} (f : A -> Promise B) (rows : list A) : Promise (list B) :=
  match rows with
  | [] => resolve []
  | r :: rest =>
      b <- f r ;;
      bs <- forEach f rest ;;
      resolve (b :: bs)
  end.

(** [assetType.findUnique({ where: { id } })] *)
Definition assetType_findUnique_id (id : string) : Promise (option AssetType) :=
  s <- readStore ;;
  resolve (find (fun a => assetType_id a === id) (assetTypes s)).

(** [assetType.findMany()] *)
Definition assetType_findMany : Promise (list AssetType) :=
  s <- readStore ;;
  resolve (assetTypes s).

(** [user.findUnique({ where: { id } })] *)
Definition user_findUnique_id (id : string) : Promise (option User) :=
  s <- readStore ;;
  resolve (find (fun u => user_id u === id) (users s)).

(** [user.findMany({ select: { id: true, name: true, email: true } })] *)
Definition user_findMany : Promise (list User) :=
  s <- readStore ;;
  resolve (users s).

(** [wallet.findMany({ where: { userId } })] *)
Definition wallet_findMany_userId (userId : string) : Promise (list Wallet) :=
  s <- readStore ;;
  resolve (filter (fun x => wallet_userId x === userId) (wallets s)).

(** [include: { senderWallet: { include: { user: true, assetType: true } },
                receiverWallet: { include: { user: true, assetType: true } } }] *)
Definition includedWallets (t : Transaction) : Promise TransactionIncluded :=
  s <- readStore ;;
  match find (walletHasId (senderWalletId t)) (wallets s),
        find (walletHasId (receiverWalletId t)) (wallets s) with
  | Some sender, Some receiver =>
      senderWallet <- included true sender ;;
      receiverWallet <- included true receiver ;;
      resolve (mkTransactionIncluded t (Some senderWallet) (Some receiverWallet))
  | None, _ => inconsistent "senderWallet"
  | _, None => inconsistent "receiverWallet"
  end.

(** [take] and [skip] on an ordered list: a negative [skip] is rejected, a
    negative [take] counts from the end of the list. *)
Definition page {A} (take skip : Z) (ordered : list A) : Promise (list A) :=
  if skip <? 0
  then throw (Error ("Invalid value for skip argument: Value can only be positive, found: -"
                     ++ digitsOf (- skip)))
  else if take <? 0
  then resolve (rev (firstn (Z.to_nat (- take)) (skipn (Z.to_nat skip) (rev ordered))))
  else resolve (firstn (Z.to_nat take) (skipn (Z.to_nat skip) ordered)).

(** [transaction.findMany({ where: { OR: [{ senderWalletId: { in: ids } },
                                          { receiverWalletId: { in: ids } }] },
                            include, orderBy: { createdAt: "desc" }, take, skip })].
    The rows of the table are in the order of their insertion, which is the
    order of [createdAt]; newest first is the table read backwards. *)
Definition transaction_findMany (ids : list string) (take skip : Z)
  : Promise (list TransactionIncluded) :=
  s <- readStore ;;
  rows <-
    page take skip
      (rev (filter
              (fun t => existsb (String.eqb (senderWalletId t)) ids
                        || existsb (String.eqb (receiverWalletId t)) ids)
              (transactions s))) ;;
  forEach includedWallets rows.

(** [transaction.findUnique({ where: { id }, include })] *)
Definition transaction_findUnique (id : string) : Promise (option TransactionIncluded) :=
  s <- readStore ;;
  match find (transactionHasId id) (transactions s) with
  | None => resolve None
  | Some t => r <- includedWallets t ;; resolve (Some r)
  end.

End Prisma.

(** ** db-access/asset-type.db.ts *)

Module AssetTypeDbAccess.

Definition findByName (name : string) : Promise (option AssetType) :=
  Prisma.assetType_findUnique name.

Definition findById (id : string) : Promise (option AssetType) :=
  Prisma.assetType_findUnique_id id.

Definition findAll : Promise (list AssetType) :=
  Prisma.assetType_findMany.

End AssetTypeDbAccess.

(** ** db-access/user.db.ts *)

Module UserDbAccess.

Definition findTreasuryUser : Promise (option User) :=
  Prisma.user_findUnique "treasury@wallet.internal".

Definition findByEmail (email : string) : Promise (option User) :=
  Prisma.user_findUnique email.

Definition findById (id : string) : Promise (option User) :=
  Prisma.user_findUnique_id id.

Definition findAllUsers : Promise (list User) :=
  Prisma.user_findMany.

End UserDbAccess.

(** ** db-access/wallet.db.ts *)

Module WalletDbAccess.

Definition findByUserAndAssetType (userId assetTypeId : string)
  : Promise (option Wallet) :=
  Prisma.wallet_findUnique_userId_assetTypeId userId assetTypeId.

Definition getOrCreate (userId assetTypeId : string) : Promise Wallet :=
  Prisma.wallet_upsert userId assetTypeId 0.

Definition findManyByIds (walletIds : list string) : Promise (list Wallet) :=
  let sortedIds := sort walletIds in
  if (List.length sortedIds =? 0)%nat then resolve []
  else Prisma.wallet_findMany sortedIds.

Definition findByIdInTransaction (id : string) : Promise (option Wallet) :=
  Prisma.wallet_findUnique id.

Definition incrementBalance (walletId : string) (amount : Z) : Promise Wallet :=
  Prisma.wallet_update walletId (fun balance => balance + amount).

Definition decrementBalance (walletId : string) (amount : Z) : Promise Wallet :=
  Prisma.wallet_update walletId (fun balance => balance - amount).


(** [findById]: the row with its asset type and its user. *)
Definition findById (id : string) : Promise (option Prisma.WalletIncluded) :=
  wallet <- Prisma.wallet_findUnique id ;;
  match wallet with
  | None => resolve None
  | Some x => r <- Prisma.included true x ;; resolve (Some r)
  end.

(** [findByUserId]: the user's rows, each with its asset type. *)
Definition findByUserId (userId : string) : Promise (list Prisma.WalletIncluded) :=
  wallets <- Prisma.wallet_findMany_userId userId ;;
  Prisma.forEach (Prisma.included false) wallets.

(** The same upsert as [getOrCreate], on the transaction client. *)
Definition getOrCreateInTransaction (userId assetTypeId : string) : Promise Wallet :=
  Prisma.wallet_upsert userId assetTypeId 0.

Definition getWalletIdsByUserId (userId : string) : Promise (list string) :=
  wallets <- Prisma.wallet_findMany_userId userId ;;
  resolve (map wallet_id wallets).

End WalletDbAccess.

(** ** db-access/transaction.db.ts *)

Module TransactionDbAccess.

Definition findByIdempotencyKey (idempotencyKey : string)
  : Promise (option Transaction) :=
  Prisma.transaction_findFirst idempotencyKey.

Record CreateData := mkCreateData
  { data_senderWalletId : string;
    data_receiverWalletId : string;
    data_amount : Z;
    data_type : TransactionType;
    data_description : option string;
    data_metadata : option Metadata }.

Definition create (data : CreateData) : Promise Transaction :=
  Prisma.transaction_create
    (data_senderWalletId data)
    (data_receiverWalletId data)
    (data_amount data)
    (data_type data)
    PENDING
    (data_description data)
    (data_metadata data).

Definition updateStatus (transactionId : string) (st : TransactionStatus)
  : Promise Transaction :=
  Prisma.transaction_update transactionId st.

(** [limit] and [skip] default to 50 and 0 when they are not given. *)
Definition findByWalletIds (walletIds : list string) (limit skip : option Z)
  : Promise (list Prisma.TransactionIncluded) :=
  Prisma.transaction_findMany walletIds
    (match limit with Some n => n | None => 50 end)
    (match skip with Some n => n | None => 0 end).

Definition findById (id : string) : Promise (option Prisma.TransactionIncluded) :=
  Prisma.transaction_findUnique id.

End TransactionDbAccess.

(** ** services/wallet.service.ts *)

Module WalletService.

Definition getOrCreateWallet (userId assetTypeId : string) : Promise Wallet :=
  WalletDbAccess.getOrCreate userId assetTypeId.

(** [findByUserAndAssetType] asks for the asset type and the user of the
    row, [getOrCreate] for the asset type: the rows the two definitions
    above return are completed here. *)
Definition getBalance (userId assetTypeName : string) : Promise Prisma.WalletIncluded :=
  assetType <- AssetTypeDbAccess.findByName assetTypeName ;;
  match assetType with
  | None => throw (Error ("Asset type " ++ assetTypeName ++ " not found"))
  | Some assetType =>
      wallet <- WalletDbAccess.findByUserAndAssetType userId (assetType_id assetType) ;;
      match wallet with
      | None =>
          created <- WalletDbAccess.getOrCreate userId (assetType_id assetType) ;;
          Prisma.included false created
      | Some wallet => Prisma.included true wallet
      end
  end.

Definition getWalletById (walletId : string) : Promise Prisma.WalletIncluded :=
  wallet <- WalletDbAccess.findById walletId ;;
  match wallet with
  | None => throw (Error ("Wallet with ID " ++ walletId ++ " not found"))
  | Some wallet => resolve wallet
  end.

Definition getUserWallets (userId : string) : Promise (list Prisma.WalletIncluded) :=
  WalletDbAccess.findByUserId userId.

End WalletService.

(** ** services/transaction.service.ts *)

Module TransactionService.

(** [metadata: idempotencyKey ? { idempotencyKey } : undefined] *)
Definition metadataOf (idempotencyKey : option string) : option Metadata :=
  match idempotencyKey with
  | Some key => if truthy idempotencyKey then Some (mkMetadata key) else None
  | None => None
  end.

(** [description || fallback] *)
Definition orElse (description : option string) (fallback : string) : string :=
  match description with
  | Some d => if truthy description then d else fallback
  | None => fallback
  end.

Definition topUp (userId assetTypeName : string) (amount : Z)
    (idempotencyKey : option string) : Promise Transaction :=
  existing <-
    match idempotencyKey with
    | Some key =>
        if truthy idempotencyKey
        then TransactionDbAccess.findByIdempotencyKey key
        else resolve None
    | None => resolve None
    end ;;
  match existing with
  | Some _ => throw (Error "Idempotency Key Already Exists")
  | None =>
  assetType <- AssetTypeDbAccess.findByName assetTypeName ;;
  match assetType with
  | None => throw (Error ("Asset type " ++ assetTypeName ++ " not found"))
  | Some assetType =>
  treasuryUser <- UserDbAccess.findTreasuryUser ;;
  match treasuryUser with
  | None => throw (Error "Treasury account not found")
  | Some treasuryUser =>
  treasuryWallet <-
    WalletService.getOrCreateWallet (user_id treasuryUser) (assetType_id assetType) ;;
  userWallet <-
    WalletService.getOrCreateWallet userId (assetType_id assetType) ;;
  transaction (
    let walletIds := sort [wallet_id treasuryWallet; wallet_id userWallet] in
    wallets <- WalletDbAccess.findManyByIds walletIds ;;
    let lockedTreasuryWallet :=
      find (fun w => wallet_id w === wallet_id treasuryWallet) wallets in
    let lockedUserWallet :=
      find (fun w => wallet_id w === wallet_id userWallet) wallets in
    match lockedTreasuryWallet, lockedUserWallet with
    | Some lockedTreasuryWallet, Some lockedUserWallet =>
        let treasuryBalance := wallet_balance lockedTreasuryWallet in
        if treasuryBalance <? amount
        then throw (Error "Insufficient treasury balance")
        else
          transaction <-
            TransactionDbAccess.create
              (TransactionDbAccess.mkCreateData
                 (wallet_id treasuryWallet)
                 (wallet_id userWallet)
                 amount
                 DEPOSIT
                 (Some ("Top-up: " ++ numberToString amount ++ " " ++ assetTypeName))
                 (metadataOf idempotencyKey)) ;;
          WalletDbAccess.decrementBalance (wallet_id treasuryWallet) amount ;;;
          WalletDbAccess.incrementBalance (wallet_id userWallet) amount ;;;
          TransactionDbAccess.updateStatus (transaction_id transaction) COMPLETED
    | _, _ => throw (Error "Wallet not found")
    end)
  end end end.

Definition issueBonus (userId assetTypeName : string) (amount : Z)
    (description : option string) (idempotencyKey : option string)
  : Promise Transaction :=
  existing <-
    match idempotencyKey with
    | Some key =>
        if truthy idempotencyKey
        then TransactionDbAccess.findByIdempotencyKey key
        else resolve None
    | None => resolve None
    end ;;
  match existing with
  | Some existing => resolve existing
  | None =>
  assetType <- AssetTypeDbAccess.findByName assetTypeName ;;
  match assetType with
  | None => throw (Error ("Asset type " ++ assetTypeName ++ " not found"))
  | Some assetType =>
  treasuryUser <- UserDbAccess.findTreasuryUser ;;
  match treasuryUser with
  | None => throw (Error "Treasury account not found")
  | Some treasuryUser =>
  treasuryWallet <-
    WalletService.getOrCreateWallet (user_id treasuryUser) (assetType_id assetType) ;;
  userWallet <-
    WalletService.getOrCreateWallet userId (assetType_id assetType) ;;
  transaction (
    let walletIds := sort [wallet_id treasuryWallet; wallet_id userWallet] in
    wallets <- WalletDbAccess.findManyByIds walletIds ;;
    let lockedTreasuryWallet :=
      find (fun w => wallet_id w === wallet_id treasuryWallet) wallets in
    let lockedUserWallet :=
      find (fun w => wallet_id w === wallet_id userWallet) wallets in
    match lockedTreasuryWallet, lockedUserWallet with
    | Some lockedTreasuryWallet, Some lockedUserWallet =>
        let treasuryBalance := wallet_balance lockedTreasuryWallet in
        if treasuryBalance <? amount
        then throw (Error "Insufficient treasury balance")
        else
          transaction <-
            TransactionDbAccess.create
              (TransactionDbAccess.mkCreateData
                 (wallet_id treasuryWallet)
                 (wallet_id userWallet)
                 amount
                 DEPOSIT
                 (Some (orElse description
                          ("Bonus: " ++ numberToString amount ++ " " ++ assetTypeName)))
                 (metadataOf idempotencyKey)) ;;
          WalletDbAccess.decrementBalance (wallet_id treasuryWallet) amount ;;;
          WalletDbAccess.incrementBalance (wallet_id userWallet) amount ;;;
          TransactionDbAccess.updateStatus (transaction_id transaction) COMPLETED
    | _, _ => throw (Error "Wallet not found")
    end)
  end end end.

Definition spend (userId assetTypeName : string) (amount : Z)
    (description : option string) (idempotencyKey : option string)
  : Promise Transaction :=
  existing <-
    match idempotencyKey with
    | Some key =>
        if truthy idempotencyKey
        then TransactionDbAccess.findByIdempotencyKey key
        else resolve None
    | None => resolve None
    end ;;
  match existing with
  | Some existing => resolve existing
  | None =>
  assetType <- AssetTypeDbAccess.findByName assetTypeName ;;
  match assetType with
  | None => throw (Error ("Asset type " ++ assetTypeName ++ " not found"))
  | Some assetType =>
  treasuryUser <- UserDbAccess.findTreasuryUser ;;
  match treasuryUser with
  | None => throw (Error "Treasury account not found")
  | Some treasuryUser =>
  userWallet <-
    WalletService.getOrCreateWallet userId (assetType_id assetType) ;;
  treasuryWallet <-
    WalletService.getOrCreateWallet (user_id treasuryUser) (assetType_id assetType) ;;
  transaction (
    let walletIds := sort [wallet_id userWallet; wallet_id treasuryWallet] in
    wallets <- WalletDbAccess.findManyByIds walletIds ;;
    let lockedUserWallet :=
      find (fun w => wallet_id w === wallet_id userWallet) wallets in
    let lockedTreasuryWallet :=
      find (fun w => wallet_id w === wallet_id treasuryWallet) wallets in
    match lockedUserWallet, lockedTreasuryWallet with
    | Some lockedUserWallet, Some lockedTreasuryWallet =>
        let userBalance := wallet_balance lockedUserWallet in
        if userBalance <? amount
        then throw (Error "Insufficient balance")
        else
          transaction <-
            TransactionDbAccess.create
              (TransactionDbAccess.mkCreateData
                 (wallet_id userWallet)
                 (wallet_id treasuryWallet)
                 amount
                 WITHDRAWAL
                 (Some (orElse description
                          ("Purchase: " ++ numberToString amount ++ " " ++ assetTypeName)))
                 (metadataOf idempotencyKey)) ;;
          WalletDbAccess.decrementBalance (wallet_id userWallet) amount ;;;
          WalletDbAccess.incrementBalance (wallet_id treasuryWallet) amount ;;;
          TransactionDbAccess.updateStatus (transaction_id transaction) COMPLETED
    | _, _ => throw (Error "Wallet not found")
    end)
  end end end.

Definition getTransactionHistory (userId : string) (limit skip : option Z)
  : Promise (list Prisma.TransactionIncluded) :=
  walletIds <- WalletDbAccess.getWalletIdsByUserId userId ;;
  TransactionDbAccess.findByWalletIds walletIds limit skip.

End TransactionService.

(** ** services/user.service.ts *)

Module UserService.

Definition getAllUsers : Promise (list User) :=
  UserDbAccess.findAllUsers.

End UserService.

(** ** routes: the three POST handlers *)

Module Routes.

(** [req.body], with each field either absent or of its documented type. *)
Record Body := mkBody
  { body_userId : option string;
    body_assetType : option string;
    body_amount : option Z;
    body_description : option string;
    body_idempotencyKey : option string }.

Record Data := mkData
  { data_transactionId : string;
    data_userId : string;
    data_assetType : string;
    data_amount : Z;
    data_description : option string;
    data_status : TransactionStatus }.

Inductive Response :=
| Created (data : Data)          (* 201, success: true *)
| BadRequest (error : string).   (* 400, success: false *)

(** [error.message] *)
Definition message (e : Exception) : string :=
  match e with
  | Error m => m
  | PrismaClientError RecordNotFound => "Record to update not found."
  | PrismaClientError UniqueConstraintFailed => "Unique constraint failed"
  | PrismaClientError ForeignKeyConstraintFailed => "Foreign key constraint failed"
  | PrismaClientError ValueOutOfRange => "Value out of range for the type"
  end.

Definition Handler : Type := Body -> World -> Response * World.

Definition respond (userId assetType : string) (withDescription : bool)
    (r : Result Transaction * World) : Response * World :=
  match r with
  | (Ok transaction, w) =>
      (Created
         (mkData (transaction_id transaction) userId assetType
            (amount transaction)
            (if withDescription then description transaction else None)
            (status transaction)),
       w)
  | (Err error, w) => (BadRequest (message error), w)
  end.

(** POST /transactions/top-up *)
Definition topUp : Handler := fun body w =>
  match body_userId body, body_assetType body, body_amount body with
  | Some userId, Some assetType, Some amount =>
      if negb (truthy (Some userId)) || negb (truthy (Some assetType))
      then (BadRequest "userId, assetType, and amount are required", w)
      else if amount <=? 0
      then (BadRequest "Amount must be greater than 0", w)
      else
        respond userId assetType false
          (TransactionService.topUp userId assetType amount
             (body_idempotencyKey body) w)
  | _, _, _ => (BadRequest "userId, assetType, and amount are required", w)
  end.

(** POST /transactions/bonus *)
Definition bonus : Handler := fun body w =>
  match body_userId body, body_assetType body, body_amount body with
  | Some userId, Some assetType, Some amount =>
      if negb (truthy (Some userId)) || negb (truthy (Some assetType))
      then (BadRequest "userId, assetType, and amount are required", w)
      else if amount <=? 0
      then (BadRequest "Amount must be greater than 0", w)
      else
        respond userId assetType true
          (TransactionService.issueBonus userId assetType amount
             (body_description body) (body_idempotencyKey body) w)
  | _, _, _ => (BadRequest "userId, assetType, and amount are required", w)
  end.

(** POST /transactions/spend *)
Definition spend : Handler := fun body w =>
  match body_userId body, body_assetType body, body_amount body with
  | Some userId, Some assetType, Some amount =>
      if negb (truthy (Some userId)) || negb (truthy (Some assetType))
         || negb (truthy (body_description body))
      then (BadRequest "userId, assetType, amount, and description are required", w)
      else if amount <=? 0
      then (BadRequest "Amount must be greater than 0", w)
      else
        respond userId assetType true
          (TransactionService.spend userId assetType amount
             (body_description body) (body_idempotencyKey body) w)
  | _, _, _ =>
      (BadRequest "userId, assetType, amount, and description are required", w)
  end.

(** *** The GET handlers *)

Inductive Answer (A : Type) :=
| Json (data : A)            (* 200, success: true *)
| Failure (error : string).  (* 400, success: false *)
Arguments Json {A} data.
Arguments Failure {A} error.

Definition answer {A B} (render : A -> B) (r : Result A * World) : Answer B * World :=
  match r with
  | (Ok a, w) => (Json (render a), w)
  | (Err error, w) => (Failure (message error), w)
  end.

(** [balance.toString()] and [amount.toString()] of a decimal. *)
Definition decimalToString (v : Z) : string := numberToString v.

Record WalletBalance := mkWalletBalance
  { balance_walletId : string;
    balance_userId : string;
    balance_assetType : string;
    balance_balance : string }.

Record UserBalance := mkUserBalance
  { userBalance_userId : string;
    userBalance_assetType : string;
    userBalance_balance : string }.

Record WalletItem := mkWalletItem
  { item_id : string;
    item_assetType : string;
    item_balance : string }.

Record Party := mkParty
  { party_userId : string;
    party_assetType : string }.

Record HistoryItem := mkHistoryItem
  { history_id : string;
    history_type : TransactionType;
    history_status : TransactionStatus;
    history_amount : string;
    history_description : option string;
    history_sender : option Party;
    history_receiver : option Party }.

(** GET /users *)
Definition getUsers : World -> Answer (list User) * World := fun w =>
  answer (fun all => all) (UserService.getAllUsers w).

(** GET /wallets/:walletId/balance *)
Definition getWalletBalance (walletId : string)
  : World -> Answer WalletBalance * World :=
  fun w =>
    answer
      (fun wallet =>
         mkWalletBalance
           (wallet_id (Prisma.included_wallet wallet))
           (wallet_userId (Prisma.included_wallet wallet))
           (assetType_name (Prisma.included_assetType wallet))
           (decimalToString (wallet_balance (Prisma.included_wallet wallet))))
      (WalletService.getWalletById walletId w).

(** GET /wallets/:userId/balance/:assetType *)
Definition getUserBalance (userId assetType : string)
  : World -> Answer UserBalance * World :=
  fun w =>
    answer
      (fun wallet =>
         mkUserBalance userId
           (assetType_name (Prisma.included_assetType wallet))
           (decimalToString (wallet_balance (Prisma.included_wallet wallet))))
      (WalletService.getBalance userId assetType w).

(** GET /wallets/:userId *)
Definition getUserWallets (userId : string)
  : World -> Answer (list WalletItem) * World :=
  fun w =>
    answer
      (map (fun wallet =>
              mkWalletItem
                (wallet_id (Prisma.included_wallet wallet))
                (assetType_name (Prisma.included_assetType wallet))
                (decimalToString (wallet_balance (Prisma.included_wallet wallet)))))
      (WalletService.getUserWallets userId w).

(** [parseInt(value) || fallback], for the number [parseInt] returned
    ([None] for NaN). *)
Definition parsedOr (parsed : option Z) (fallback : Z) : Z :=
  match parsed with
  | Some n => if n =? 0 then fallback else n
  | None => fallback
  end.

Definition partyOf (wallet : option Prisma.WalletIncluded) : option Party :=
  match wallet with
  | Some wallet =>
      Some (mkParty (wallet_userId (Prisma.included_wallet wallet))
              (assetType_name (Prisma.included_assetType wallet)))
  | None => None
  end.

(** GET /transactions/:userId/history, with [limit] and [skip] the results
    of [parseInt] on the two query parameters. *)
Definition getHistory (userId : string) (limit skip : option Z)
  : World -> Answer (list HistoryItem) * World :=
  fun w =>
    answer
      (map (fun t =>
              let transaction := Prisma.included_transaction t in
              mkHistoryItem
                (transaction_id transaction)
                (type_ transaction)
                (status transaction)
                (decimalToString (amount transaction))
                (description transaction)
                (partyOf (Prisma.included_senderWallet t))
                (partyOf (Prisma.included_receiverWallet t))))
      (TransactionService.getTransactionHistory userId
         (Some (parsedOr limit 50)) (Some (parsedOr skip 0)) w).

End Routes.

(** * Notions used in the statements *)

(** A row selected by the value of a string column, and the order
    [orderBy] sorts by. *)
Definition keyed {A} (key : A -> string) (k : string) (x : A) : bool :=
  key x === k.

Definition ascending {A} (key : A -> string) (x y : A) : Prop :=
  (key x <=? key y)%string = true.

Definition findWallet (s : Store) (id : string) : option Wallet :=
  find (Prisma.walletHasId id) (wallets s).

(** The balance of the wallet with this id; a wallet that does not exist
    yet (it is created with balance 0 on first use) counts as 0. *)
Definition balanceOf (s : Store) (id : string) : Z :=
  match findWallet s id with
  | Some x => wallet_balance x
  | None => 0
  end.

(** The ledger entry an idempotency key hits, if the key is supplied (is
    truthy) and some entry carries it. *)
Definition hit (s : Store) (idempotencyKey : option string) : option Transaction :=
  match idempotencyKey with
  | Some k =>
      if truthy idempotencyKey
      then find (Prisma.hasIdempotencyKey k) (transactions s)
      else None
  | None => None
  end.

Definition sameLedger (s s' : Store) : Prop :=
  transactions s' = transactions s.

Definition sameBalances (s s' : Store) : Prop :=
  forall id, balanceOf s' id = balanceOf s id.

(** [s'] is [s] with zero-balance wallets added at the end of the table. *)
Definition extends (s s' : Store) : Prop :=
  users s' = users s /\
  assetTypes s' = assetTypes s /\
  transactions s' = transactions s /\
  exists extra,
    wallets s' = (wallets s ++ extra)%list /\
    Forall (fun x => wallet_balance x = 0) extra.

(** Every persisted ledger entry is COMPLETED. *)
Definition ledgerCompleted (s : Store) : Prop :=
  Forall (fun t => status t = COMPLETED) (transactions s).

(** What one applied transfer leaves behind: exactly one new ledger entry
    [t], COMPLETED, and its amount moved from the sender's to the receiver's
    balance. *)
Record Transferred (s s' : Store) (t : Transaction) : Prop := mkTransferred
  { transferred_fresh :
      existsb (Prisma.transactionHasId (transaction_id t)) (transactions s) = false;
    transferred_status : status t = COMPLETED;
    transferred_ledger : transactions s' = (transactions s ++ [t])%list;
    transferred_funds : amount t <= balanceOf s (senderWalletId t);
    transferred_balances :
      forall id,
        balanceOf s' id =
        balanceOf s id
        - (if id === senderWalletId t then amount t else 0)
        + (if id === receiverWalletId t then amount t else 0) }.

(** ** The algorithm the three operations share

    [topUp], [issueBonus] and [spend] are three copies of one text; they
    differ in what happens on an idempotency hit, in which of the two
    accounts sends, in the ledger kind, the description and the message of
    the balance check.  [engine] is that text with the five differences as
    parameters; [topUp_engine], [issueBonus_engine] and [spend_engine] below
    show the three operations to be instances of it. *)

Definition lookup (idempotencyKey : option string) : Promise (option Transaction) :=
  match idempotencyKey with
  | Some key =>
      if truthy idempotencyKey
      then TransactionDbAccess.findByIdempotencyKey key
      else resolve None
  | None => resolve None
  end.

Definition transfer (senderWallet receiverWallet : Wallet) (amount : Z)
    (kind : TransactionType) (description : string) (meta : option Metadata)
    (insufficient : string) : Promise Transaction :=
  let walletIds := sort [wallet_id senderWallet; wallet_id receiverWallet] in
  wallets <- WalletDbAccess.findManyByIds walletIds ;;
  match find (fun w => wallet_id w === wallet_id senderWallet) wallets,
        find (fun w => wallet_id w === wallet_id receiverWallet) wallets with
  | Some lockedSender, Some lockedReceiver =>
      if wallet_balance lockedSender <? amount
      then throw (Error insufficient)
      else
        transaction <-
          TransactionDbAccess.create
            (TransactionDbAccess.mkCreateData
               (wallet_id senderWallet) (wallet_id receiverWallet)
               amount kind (Some description) meta) ;;
        WalletDbAccess.decrementBalance (wallet_id senderWallet) amount ;;;
        WalletDbAccess.incrementBalance (wallet_id receiverWallet) amount ;;;
        TransactionDbAccess.updateStatus (transaction_id transaction) COMPLETED
  | _, _ => throw (Error "Wallet not found")
  end.

Definition engine (onHit : Transaction -> Promise Transaction)
    (parties : User -> string * string) (kind : TransactionType)
    (description insufficient : string)
    (assetTypeName : string) (amount : Z) (idempotencyKey : option string)
  : Promise Transaction :=
  existing <- lookup idempotencyKey ;;
  match existing with
  | Some existing => onHit existing
  | None =>
  assetType <- AssetTypeDbAccess.findByName assetTypeName ;;
  match assetType with
  | None => throw (Error ("Asset type " ++ assetTypeName ++ " not found"))
  | Some assetType =>
  treasuryUser <- UserDbAccess.findTreasuryUser ;;
  match treasuryUser with
  | None => throw (Error "Treasury account not found")
  | Some treasuryUser =>
  senderWallet <-
    WalletService.getOrCreateWallet (fst (parties treasuryUser)) (assetType_id assetType) ;;
  receiverWallet <-
    WalletService.getOrCreateWallet (snd (parties treasuryUser)) (assetType_id assetType) ;;
  transaction
    (transfer senderWallet receiverWallet amount kind description
       (TransactionService.metadataOf idempotencyKey) insufficient)
  end end end.

(** The rows [findManyByIds] resolves to. *)
Definition fetched (s : Store) (ids : list string) : list Wallet :=
  if (List.length (sort ids) =? 0)%nat then []
  else sortBy wallet_id
         (filter (fun x => existsb (String.eqb (wallet_id x)) (sort ids))
            (wallets s)).

(** ** Calls and histories *)

Inductive Call :=
| TopUp (userId assetTypeName : string) (amount : Z) (idempotencyKey : option string)
| IssueBonus (userId assetTypeName : string) (amount : Z)
    (description idempotencyKey : option string)
| Spend (userId assetTypeName : string) (amount : Z)
    (description idempotencyKey : option string).

Definition perform (c : Call) : Promise Transaction :=
  match c with
  | TopUp u a amt key => TransactionService.topUp u a amt key
  | IssueBonus u a amt desc key => TransactionService.issueBonus u a amt desc key
  | Spend u a amt desc key => TransactionService.spend u a amt desc key
  end.

Definition keyOf (c : Call) : option string :=
  match c with
  | TopUp _ _ _ key => key
  | IssueBonus _ _ _ _ key => key
  | Spend _ _ _ _ key => key
  end.

Definition amountOf (c : Call) : Z :=
  match c with
  | TopUp _ _ amt _ => amt
  | IssueBonus _ _ amt _ _ => amt
  | Spend _ _ amt _ _ => amt
  end.

Definition assetOf (c : Call) : string :=
  match c with
  | TopUp _ a _ _ => a
  | IssueBonus _ a _ _ _ => a
  | Spend _ a _ _ _ => a
  end.

(** The account that sends and the account that receives, given the
    Treasury account. *)
Definition partiesOf (c : Call) (treasuryUser : User) : string * string :=
  match c with
  | TopUp u _ _ _ => (user_id treasuryUser, u)
  | IssueBonus u _ _ _ _ => (user_id treasuryUser, u)
  | Spend u _ _ _ _ => (u, user_id treasuryUser)
  end.


(** What an operation does on an idempotency hit. *)
Definition replay (c : Call) (e : Transaction) : Result Transaction :=
  match c with
  | TopUp _ _ _ _ => Err (Error "Idempotency Key Already Exists")
  | _ => Ok e
  end.

(** The world after a sequence of calls, whatever each of them returned. *)
Fixpoint after (calls : list Call) (w : World) : World :=
  match calls with
  | [] => w
  | c :: rest => after rest (snd (perform c w))
  end.


(** ** A seeded database

    The Treasury with 1,000,000 GOLD and one user with 50 GOLD. *)

Module Scenario.

Definition units (n : Z) : Z := n * 1000000.

Definition ids (n : nat) : string := "row-" ++ digitsOf (Z.of_nat n).

Definition treasury : User :=
  mkUser "u-treasury" "treasury@wallet.internal" "System Treasury".

Definition alice : User := mkUser "u-alice" "alice@example.com" "Alice".

Definition gold : AssetType := mkAssetType "a-gold" "GOLD" None.

Definition seeded : Store :=
  mkStore [treasury; alice] [gold]
    [mkWallet "w-treasury-gold" "u-treasury" "a-gold" (units 1000000);
     mkWallet "w-alice-gold" "u-alice" "a-gold" (units 50)]
    [].

Definition world : World := mkWorld seeded ids.

(** The world after [topUp(alice, "GOLD", 100, "order-1")], and the ledger
    entry that call leaves. *)
Definition toppedUp : World :=
  snd (TransactionService.topUp "u-alice" "GOLD" (units 100) (Some "order-1") world).

Definition deposit : Transaction :=
  mkTransaction "row-0" "w-treasury-gold" "w-alice-gold" (units 100)
    DEPOSIT COMPLETED (Some "Top-up: 100 GOLD") (Some (mkMetadata "order-1")).

End Scenario.

(** * Notions for the whole service *)

(** All credits there are, and all there are of one asset type. *)
Definition totalBalance (s : Store) : Z :=
  fold_right Z.add 0 (map wallet_balance (wallets s)).



(** The idempotency keys the ledger holds, one for each entry that has one. *)
Definition idempotencyKeys (ts : list Transaction) : list string :=
  flat_map
    (fun t => match metadata t with Some m => [idempotencyKey m] | None => [] end)
    ts.

Definition walletKey (x : Wallet) : string * string :=
  (wallet_userId x, wallet_assetTypeId x).

(** What the constraints of the schema say of the wallets and the ledger:
    primary keys and the (userId, assetTypeId) index are unique, and every
    reference points at a row. *)
Record Integrity (s : Store) : Prop := mkIntegrity
  { wallet_ids_unique : NoDup (map wallet_id (wallets s));
    wallet_keys_unique : NoDup (map walletKey (wallets s));
    wallet_references :
      Forall
        (fun x =>
           existsb (fun u => user_id u === wallet_userId x) (users s) = true /\
           existsb (fun a => assetType_id a === wallet_assetTypeId x) (assetTypes s) = true)
        (wallets s);
    transaction_ids_unique : NoDup (map transaction_id (transactions s));
    transaction_references :
      Forall
        (fun t =>
           existsb (Prisma.walletHasId (senderWalletId t)) (wallets s) = true /\
           existsb (Prisma.walletHasId (receiverWalletId t)) (wallets s) = true)
        (transactions s) }.

(** [m] keeps [I]: from a database where [I] holds it leaves, resolved or
    rejected, a database where [I] holds. *)
Definition keeps (I : Store -> Prop) {A} (m : Promise A) : Prop :=
  forall w r w', I (store w) -> m w = (r, w') -> I (store w').

(** [m] only reads. *)
Definition readOnly {A} (m : Promise A) : Prop :=
  forall w, snd (m w) = w.

(** The wallets after [amt] has been taken from the first row with id [sid]
    and, after that, given to the first row with id [rid]. *)
Definition debited (sid : string) (amt : Z) (ws : list Wallet) : list Wallet :=
  match find (Prisma.walletHasId sid) ws with
  | Some x =>
      updateFirst (Prisma.walletHasId sid)
        (fun y => set_balance y (wallet_balance x - amt)) ws
  | None => ws
  end.

Definition credited (rid : string) (amt : Z) (ws : list Wallet) : list Wallet :=
  match find (Prisma.walletHasId rid) ws with
  | Some x =>
      updateFirst (Prisma.walletHasId rid)
        (fun y => set_balance y (wallet_balance x + amt)) ws
  | None => ws
  end.

(** The database after one applied transfer, row by row: [sender] and
    [receiver] are the wallets of the two accounts for the asset type,
    there or created by the call; the ledger has the one new entry [t]; the
    amount has gone from the one wallet to the other. *)
Inductive Applied (s s' : Store) (t : Transaction)
    (senderUser receiverUser assetTypeId : string) : Prop :=
| applied (locked : Store) (sender receiver : Wallet) :
    extends s locked ->
    (Integrity s -> Integrity locked) ->
    find (Prisma.walletHasUserAndAssetType senderUser assetTypeId)
      (wallets locked) = Some sender ->
    find (Prisma.walletHasUserAndAssetType receiverUser assetTypeId)
      (wallets locked) = Some receiver ->
    senderWalletId t = wallet_id sender ->
    receiverWalletId t = wallet_id receiver ->
    status t = COMPLETED ->
    existsb (Prisma.transactionHasId (transaction_id t)) (transactions locked) = false ->
    amount t <= balanceOf locked (senderWalletId t) ->
    (exists x, find (Prisma.walletHasId (senderWalletId t)) (wallets locked) = Some x) ->
    (exists x, find (Prisma.walletHasId (receiverWalletId t)) (wallets locked) = Some x) ->
    s' =
      mkStore (users locked) (assetTypes locked)
        (credited (receiverWalletId t) (amount t)
           (debited (senderWalletId t) (amount t) (wallets locked)))
        (transactions locked ++ [t]) ->
    Applied s s' t senderUser receiverUser assetTypeId.

Definition sumBalances (ws : list Wallet) : Z :=
  fold_right Z.add 0 (map wallet_balance ws).


Definition userOf (c : Call) : string :=
  match c with
  | TopUp u _ _ _ => u
  | IssueBonus u _ _ _ _ => u
  | Spend u _ _ _ _ => u
  end.

(** ** Requests *)

Inductive Request :=
| PostTopUp (body : Routes.Body)
| PostBonus (body : Routes.Body)
| PostSpend (body : Routes.Body).

Definition handle (q : Request) : World -> Routes.Response * World :=
  match q with
  | PostTopUp body => Routes.topUp body
  | PostBonus body => Routes.bonus body
  | PostSpend body => Routes.spend body
  end.

Definition bodyOf (q : Request) : Routes.Body :=
  match q with
  | PostTopUp body => body
  | PostBonus body => body
  | PostSpend body => body
  end.


(** The GET requests. *)
Inductive Query :=
| GetUsers
| GetWalletBalance (walletId : string)
| GetUserBalance (userId assetType : string)
| GetUserWallets (userId : string)
| GetHistory (userId : string) (limit skip : option Z).

(** The world a GET request leaves, whatever it answers. *)
Definition asked (q : Query) (w : World) : World :=
  match q with
  | GetUsers => snd (Routes.getUsers w)
  | GetWalletBalance walletId => snd (Routes.getWalletBalance walletId w)
  | GetUserBalance userId assetType => snd (Routes.getUserBalance userId assetType w)
  | GetUserWallets userId => snd (Routes.getUserWallets userId w)
  | GetHistory userId limit skip => snd (Routes.getHistory userId limit skip w)
  end.

(** ** The history of a user *)

(** [t] has a wallet of [userId] as its sender or as its receiver. *)
Definition involves (s : Store) (userId : string) (t : Transaction) : Prop :=
  exists x,
    In x (wallets s) /\ wallet_userId x = userId /\
    (senderWalletId t = wallet_id x \/ receiverWalletId t = wallet_id x).

(** The ledger entries of the wallets with these ids, newest first. *)
Definition entriesOf (s : Store) (walletIds : list string) : list Transaction :=
  rev (filter
         (fun t => existsb (String.eqb (senderWalletId t)) walletIds
                   || existsb (String.eqb (receiverWalletId t)) walletIds)
         (transactions s)).

Definition walletIdsOf (s : Store) (userId : string) : list string :=
  map wallet_id (filter (fun x => wallet_userId x === userId) (wallets s)).

(** * Reasoning *)

(** ** The order on ids *)

Lemma ascii_compare_refl (c : ascii) : Ascii.compare c c = Eq.
Proof. unfold Ascii.compare. apply N.compare_refl. Qed.

Lemma ascii_compare_lt_trans (a b c : ascii) :
  Ascii.compare a b = Lt -> Ascii.compare b c = Lt -> Ascii.compare a c = Lt.
Proof.
  unfold Ascii.compare. rewrite !N.compare_lt_iff. apply N.lt_trans.
Qed.

Lemma string_compare_refl (s : string) : String.compare s s = Eq.
Proof.
  induction s as [|c s IH]; simpl; [reflexivity|].
  now rewrite ascii_compare_refl.
Qed.

Lemma string_compare_lt_trans (s1 : string) :
  forall s2 s3,
    String.compare s1 s2 = Lt -> String.compare s2 s3 = Lt ->
    String.compare s1 s3 = Lt.
Proof.
  induction s1 as [|c1 s1 IH]; intros [|c2 s2] [|c3 s3]; simpl;
    try congruence.
  destruct (Ascii.compare c1 c2) eqn:E12; try congruence;
    destruct (Ascii.compare c2 c3) eqn:E23; try congruence; intros H12 H23.
  - apply Ascii.compare_eq_iff in E12, E23. subst.
    rewrite ascii_compare_refl. eauto.
  - apply Ascii.compare_eq_iff in E12. subst. now rewrite E23.
  - apply Ascii.compare_eq_iff in E23. subst. now rewrite E12.
  - now rewrite (ascii_compare_lt_trans _ _ _ E12 E23).
Qed.

Lemma leb_refl (s : string) : (s <=? s)%string = true.
Proof. unfold String.leb. now rewrite string_compare_refl. Qed.

Lemma leb_trans (s1 s2 s3 : string) :
  (s1 <=? s2)%string = true -> (s2 <=? s3)%string = true ->
  (s1 <=? s3)%string = true.
Proof.
  unfold String.leb.
  destruct (String.compare s1 s2) eqn:E12; try discriminate;
    destruct (String.compare s2 s3) eqn:E23; try discriminate; intros _ _.
  - apply String.compare_eq_iff in E12, E23. subst.
    now rewrite string_compare_refl.
  - apply String.compare_eq_iff in E12. subst. now rewrite E23.
  - apply String.compare_eq_iff in E23. subst. now rewrite E12.
  - now rewrite (string_compare_lt_trans _ _ _ E12 E23).
Qed.

Lemma leb_false_flip (s1 s2 : string) :
  (s1 <=? s2)%string = false -> (s2 <=? s1)%string = true.
Proof.
  intros H. destruct (String.leb_total s1 s2) as [E|E]; congruence.
Qed.

(** ** Rows: finding, replacing, sorting *)

Section Rows.

Context {A : Type}.
Variable key : A -> string.

Lemma find_app (p : A -> bool) (l1 l2 : list A) :
  find p (l1 ++ l2) =
  match find p l1 with
  | Some x => Some x
  | None => find p l2
  end.
Proof.
  induction l1 as [|x l1 IH]; simpl; [reflexivity|].
  destruct (p x); auto.
Qed.

Lemma find_existsb (p : A -> bool) (l : list A) :
  existsb p l = match find p l with Some _ => true | None => false end.
Proof.
  induction l as [|x l IH]; simpl; [reflexivity|].
  destruct (p x); auto.
Qed.

Lemma find_filter (p q : A -> bool) (l : list A) :
  (forall x, p x = true -> q x = true) ->
  find p (filter q l) = find p l.
Proof.
  intros Hpq. induction l as [|x l IH]; simpl; [reflexivity|].
  destruct (q x) eqn:Eq; simpl.
  - now rewrite IH.
  - destruct (p x) eqn:Ep; [|exact IH].
    apply Hpq in Ep. congruence.
Qed.

Lemma find_updateFirst_same (k : string) (f : A -> A) (l : list A) :
  (forall x, key (f x) = key x) ->
  find (keyed key k) (updateFirst (keyed key k) f l) = option_map f (find (keyed key k) l).
Proof.
  intros Hf. induction l as [|x l IH]; simpl; [reflexivity|].
  destruct (keyed key k x) eqn:E; simpl.
  - unfold keyed in *. now rewrite Hf, E.
  - now rewrite E.
Qed.

Lemma find_updateFirst_other (k k' : string) (f : A -> A) (l : list A) :
  (forall x, key (f x) = key x) ->
  k <> k' ->
  find (keyed key k) (updateFirst (keyed key k') f l) = find (keyed key k) l.
Proof.
  intros Hf Hk. induction l as [|x l IH]; simpl; [reflexivity|].
  destruct (keyed key k' x) eqn:E'; simpl.
  - unfold keyed in *. rewrite Hf.
    apply String.eqb_eq in E'.
    destruct (key x === k) eqn:E; [|reflexivity].
    apply String.eqb_eq in E. congruence.
  - now rewrite IH.
Qed.

Lemma updateFirst_fresh (p : A -> bool) (f : A -> A) (l : list A) (x : A) :
  existsb p l = false -> p x = true ->
  updateFirst p f (l ++ [x]) = (l ++ [f x])%list.
Proof.
  induction l as [|y l IH]; simpl; intros Hl Hx.
  - now rewrite Hx.
  - apply orb_false_iff in Hl as [Hy Hl]. rewrite Hy. now rewrite IH.
Qed.

Lemma find_insertBy (k : string) (x : A) (l : list A) :
  find (keyed key k) (insertBy key x l) =
  if keyed key k x then Some x else find (keyed key k) l.
Proof.
  induction l as [|y l IH]; simpl; [reflexivity|].
  destruct (key x <=? key y)%string eqn:Exy; simpl; [reflexivity|].
  rewrite IH.
  destruct (keyed key k y) eqn:Ey; [|reflexivity].
  destruct (keyed key k x) eqn:Ex; [|reflexivity].
  unfold keyed in *. apply String.eqb_eq in Ex, Ey.
  rewrite Ex, Ey, leb_refl in Exy. discriminate.
Qed.

Lemma find_sortBy (k : string) (l : list A) :
  find (keyed key k) (sortBy key l) = find (keyed key k) l.
Proof.
  induction l as [|x l IH]; simpl; [reflexivity|].
  rewrite find_insertBy, IH. reflexivity.
Qed.

Lemma insertBy_Permutation (x : A) (l : list A) :
  Permutation (insertBy key x l) (x :: l).
Proof.
  induction l as [|y l IH]; simpl; [reflexivity|].
  destruct (key x <=? key y)%string; [reflexivity|].
  rewrite IH. apply perm_swap.
Qed.

Lemma sortBy_Permutation (l : list A) : Permutation (sortBy key l) l.
Proof.
  induction l as [|x l IH]; simpl; [reflexivity|].
  rewrite insertBy_Permutation. now constructor.
Qed.

Lemma insertBy_sorted (x : A) (l : list A) :
  StronglySorted (ascending key) l -> StronglySorted (ascending key) (insertBy key x l).
Proof.
  induction l as [|y l IH]; simpl; intros Hl.
  - repeat constructor.
  - inversion Hl as [|? ? Hl' Hy]; subst.
    destruct (key x <=? key y)%string eqn:Exy.
    + constructor; [assumption|].
      constructor; [exact Exy|].
      eapply Forall_impl; [|exact Hy].
      intros z Hz. unfold ascending in *. eapply leb_trans; eassumption.
    + constructor; [auto|].
      eapply Permutation_Forall;
        [symmetry; apply insertBy_Permutation|].
      constructor; [|assumption].
      now apply leb_false_flip.
Qed.

Lemma sortBy_sorted (l : list A) : StronglySorted (ascending key) (sortBy key l).
Proof.
  induction l as [|x l IH]; simpl; [constructor|].
  now apply insertBy_sorted.
Qed.

Lemma sortBy_In (l : list A) (x : A) : In x (sortBy key l) <-> In x l.
Proof.
  split; apply Permutation_in;
    [apply sortBy_Permutation | symmetry; apply sortBy_Permutation].
Qed.

End Rows.

Lemma existsb_eqb_In (k : string) (l : list string) :
  existsb (String.eqb k) l = true <-> In k l.
Proof.
  rewrite existsb_exists. split.
  - intros [y [Hy E]]. apply String.eqb_eq in E. now subst.
  - intros H. exists k. split; [assumption | apply String.eqb_refl].
Qed.

Lemma existsb_eqb_same_members (k : string) (l l' : list string) :
  (forall x, In x l <-> In x l') ->
  existsb (String.eqb k) l = existsb (String.eqb k) l'.
Proof.
  intros H.
  destruct (existsb (String.eqb k) l) eqn:E, (existsb (String.eqb k) l') eqn:E';
    try reflexivity.
  - apply existsb_eqb_In, H, existsb_eqb_In in E. congruence.
  - apply existsb_eqb_In, H, existsb_eqb_In in E'. congruence.
Qed.

(** ** Printing of amounts *)

Example numberToString_whole : numberToString (Scenario.units 100) = "100".
Proof. reflexivity. Qed.

Example numberToString_fraction : numberToString 1500000 = "1.5".
Proof. reflexivity. Qed.

Example numberToString_millionth : numberToString 1 = "0.000001".
Proof. reflexivity. Qed.

Example numberToString_negative : numberToString (-2050000) = "-2.05".
Proof. reflexivity. Qed.

(** ** The three operations are instances of [engine] *)

Lemma topUp_engine (userId assetTypeName : string) (amt : Z) (key : option string) :
  TransactionService.topUp userId assetTypeName amt key =
  engine (fun _ => throw (Error "Idempotency Key Already Exists"))
    (fun treasuryUser => (user_id treasuryUser, userId)) DEPOSIT
    ("Top-up: " ++ numberToString amt ++ " " ++ assetTypeName)
    "Insufficient treasury balance" assetTypeName amt key.
Proof. reflexivity. Qed.

Lemma issueBonus_engine (userId assetTypeName : string) (amt : Z)
    (desc key : option string) :
  TransactionService.issueBonus userId assetTypeName amt desc key =
  engine resolve
    (fun treasuryUser => (user_id treasuryUser, userId)) DEPOSIT
    (TransactionService.orElse desc
       ("Bonus: " ++ numberToString amt ++ " " ++ assetTypeName))
    "Insufficient treasury balance" assetTypeName amt key.
Proof. reflexivity. Qed.

Lemma spend_engine (userId assetTypeName : string) (amt : Z)
    (desc key : option string) :
  TransactionService.spend userId assetTypeName amt desc key =
  engine resolve
    (fun treasuryUser => (userId, user_id treasuryUser)) WITHDRAWAL
    (TransactionService.orElse desc
       ("Purchase: " ++ numberToString amt ++ " " ++ assetTypeName))
    "Insufficient balance" assetTypeName amt key.
Proof. reflexivity. Qed.

(** ** Promises *)

Lemma await_ok_inv {A B} (m : Promise A) (k : A -> Promise B) w b w' :
  await m k w = (Ok b, w') ->
  exists a w1, m w = (Ok a, w1) /\ k a w1 = (Ok b, w').
Proof.
  unfold await. destruct (m w) as [[a|e] w1]; intros H; [eauto | discriminate].
Qed.

Lemma transaction_ok_inv {A} (body : Promise A) w a w' :
  transaction body w = (Ok a, w') -> body w = (Ok a, w').
Proof.
  unfold transaction. destruct (body w) as [[b|e] w1]; intros H;
    [assumption | discriminate].
Qed.

Lemma transaction_err_inv {A} (body : Promise A) w e w' :
  transaction body w = (Err e, w') -> store w' = store w.
Proof.
  unfold transaction. destruct (body w) as [[b|e1] w1]; intros H;
    inversion H; reflexivity.
Qed.



(** ** Stores *)

Lemma extends_refl (s : Store) : extends s s.
Proof.
  repeat split. exists []. split; [now rewrite app_nil_r | constructor].
Qed.

Lemma extends_trans (s1 s2 s3 : Store) :
  extends s1 s2 -> extends s2 s3 -> extends s1 s3.
Proof.
  intros (Hu & Ha & Ht & e1 & Hw & H1) (Hu' & Ha' & Ht' & e2 & Hw' & H2).
  repeat split; try congruence.
  exists (e1 ++ e2)%list. split.
  - rewrite Hw', Hw. now rewrite app_assoc.
  - apply Forall_app. now split.
Qed.


Lemma extends_sameBalances (s s' : Store) : extends s s' -> sameBalances s s'.
Proof.
  intros (_ & _ & _ & extra & Hw & Hz) id. unfold balanceOf, findWallet.
  rewrite Hw, find_app.
  destruct (find (Prisma.walletHasId id) (wallets s)) as [x|]; [reflexivity|].
  destruct (find (Prisma.walletHasId id) extra) as [y|] eqn:E; [|reflexivity].
  apply find_some in E as [Hy _].
  rewrite Forall_forall in Hz. now apply Hz.
Qed.

Lemma extends_sameLedger (s s' : Store) : extends s s' -> sameLedger s s'.
Proof. now intros (_ & _ & Ht & _). Qed.

Lemma balanceOf_found (s : Store) (id : string) (x : Wallet) :
  findWallet s id = Some x -> balanceOf s id = wallet_balance x.
Proof. unfold balanceOf. now intros ->. Qed.

(** ** Data access *)

Lemma lookup_run (key : option string) (w : World) :
  lookup key w = (Ok (hit (store w) key), w).
Proof.
  unfold lookup, hit. destruct key as [k|]; [|reflexivity].
  destruct (truthy (Some k)); reflexivity.
Qed.

Lemma findByIdempotencyKey_run (k : string) (w : World) :
  TransactionDbAccess.findByIdempotencyKey k w =
  (Ok (find (Prisma.hasIdempotencyKey k) (transactions (store w))), w).
Proof. reflexivity. Qed.

Lemma findManyByIds_run (ids : list string) (w : World) :
  WalletDbAccess.findManyByIds ids w =
  (Ok (if (List.length (sort ids) =? 0)%nat then []
       else sortBy wallet_id
              (filter (fun x => existsb (String.eqb (wallet_id x)) (sort ids))
                 (wallets (store w)))),
   w).
Proof.
  unfold WalletDbAccess.findManyByIds.
  destruct (List.length (sort ids) =? 0)%nat; reflexivity.
Qed.

Lemma wallet_update_ok_inv (id : string) (f : Z -> Z) w x' w' :
  Prisma.wallet_update id f w = (Ok x', w') ->
  exists x,
    findWallet (store w) id = Some x /\
    x' = set_balance x (f (wallet_balance x)) /\
    store w' =
      set_wallets (store w)
        (updateFirst (Prisma.walletHasId id)
           (fun y => set_balance y (f (wallet_balance x))) (wallets (store w))).
Proof.
  unfold Prisma.wallet_update, findWallet, await, readStore, writeStore,
    resolve, throw.
  destruct (find (Prisma.walletHasId id) (wallets (store w))) as [x|];
    [|discriminate].
  destruct (inDecimalRange (f (wallet_balance x))); [|discriminate].
  intros H. inversion H; subst. exists x. auto.
Qed.

Lemma wallet_create_inv (userId assetTypeId : string) (b : Z) w r w' :
  Prisma.wallet_create userId assetTypeId b w = (r, w') ->
  (exists e, r = Err e /\ store w' = store w) \/
  (exists x,
      r = Ok x /\ wallet_balance x = b /\
      existsb (Prisma.walletHasId (wallet_id x)) (wallets (store w)) = false /\
      store w' = set_wallets (store w) (wallets (store w) ++ [x])).
Proof.
  unfold Prisma.wallet_create, await, uuid, readStore, writeStore, resolve,
    throw. simpl.
  destruct (existsb (Prisma.walletHasId (uuids w 0%nat)) (wallets (store w)))
    eqn:Eid; simpl.
  { intros H; inversion H; subst. left. eauto. }
  destruct (existsb (Prisma.walletHasUserAndAssetType userId assetTypeId)
              (wallets (store w))); simpl.
  { intros H; inversion H; subst. left. eauto. }
  destruct (negb (existsb (fun u => user_id u === userId) (users (store w)))
            || negb (existsb (fun a => assetType_id a === assetTypeId)
                       (assetTypes (store w)))).
  { intros H; inversion H; subst. left. eauto. }
  destruct (negb (inDecimalRange b)).
  { intros H; inversion H; subst. left. eauto. }
  intros H; inversion H; subst. right. eexists. repeat split. exact Eid.
Qed.

Lemma find_In_some {A} (p : A -> bool) (l : list A) (x : A) :
  In x l -> p x = true -> exists y, find p l = Some y.
Proof.
  intros Hin Hp. destruct (find p l) as [y|] eqn:E; [eauto|].
  eapply find_none in E; [|exact Hin]. congruence.
Qed.

Lemma getOrCreate_spec (userId assetTypeId : string) w r w' :
  WalletDbAccess.getOrCreate userId assetTypeId w = (r, w') ->
  extends (store w) (store w') /\
  forall x, r = Ok x -> exists y, findWallet (store w') (wallet_id x) = Some y.
Proof.
  unfold WalletDbAccess.getOrCreate, Prisma.wallet_upsert, await, readStore,
    resolve.
  destruct (find (Prisma.walletHasUserAndAssetType userId assetTypeId)
              (wallets (store w))) as [x|] eqn:E.
  - intros H; inversion H; subst. split; [apply extends_refl|].
    intros y Hy. inversion Hy; subst.
    apply find_some in E as [Hin _].
    eapply find_In_some; [exact Hin|]. apply String.eqb_refl.
  - intros H. apply wallet_create_inv in H
      as [(e & -> & Hs) | (x & -> & Hb & Hfresh & Hs)].
    + rewrite Hs. split; [apply extends_refl | discriminate].
    + rewrite Hs. split.
      * repeat split. exists [x]. split; [reflexivity|]. now constructor.
      * intros y Hy. inversion Hy; subst. unfold findWallet. simpl.
        rewrite find_app.
        destruct (find (Prisma.walletHasId (wallet_id y)) (wallets (store w)));
          [eauto|].
        simpl. unfold Prisma.walletHasId at 1. rewrite String.eqb_refl. eauto.
Qed.

Lemma transaction_create_ok_inv (data : TransactionDbAccess.CreateData) w t w' :
  TransactionDbAccess.create data w = (Ok t, w') ->
  t = mkTransaction (uuids w 0%nat)
        (TransactionDbAccess.data_senderWalletId data)
        (TransactionDbAccess.data_receiverWalletId data)
        (TransactionDbAccess.data_amount data)
        (TransactionDbAccess.data_type data)
        PENDING
        (TransactionDbAccess.data_description data)
        (TransactionDbAccess.data_metadata data) /\
  existsb (Prisma.transactionHasId (transaction_id t)) (transactions (store w)) = false /\
  store w' = set_transactions (store w) (transactions (store w) ++ [t]).
Proof.
  unfold TransactionDbAccess.create, Prisma.transaction_create, await, uuid,
    readStore, writeStore, resolve, throw. simpl.
  destruct (existsb (Prisma.transactionHasId (uuids w 0%nat))
              (transactions (store w))) eqn:Eid; [discriminate|].
  destruct (negb _ || negb _); [discriminate|].
  destruct (negb (inDecimalRange _)); [discriminate|].
  intros H; inversion H; subst. simpl. auto.
Qed.

Lemma updateStatus_ok_inv (id : string) (st : TransactionStatus) w t' w' :
  TransactionDbAccess.updateStatus id st w = (Ok t', w') ->
  exists t,
    find (Prisma.transactionHasId id) (transactions (store w)) = Some t /\
    t' = set_status t st /\
    store w' =
      set_transactions (store w)
        (updateFirst (Prisma.transactionHasId id) (fun u => set_status u st)
           (transactions (store w))).
Proof.
  unfold TransactionDbAccess.updateStatus, Prisma.transaction_update, await,
    readStore, writeStore, resolve, throw.
  destruct (find (Prisma.transactionHasId id) (transactions (store w)))
    as [t|]; [|discriminate].
  intros H; inversion H; subst. eauto.
Qed.

(** ** The locked wallets *)

Lemma fetched_find (s : Store) (ids : list string) (id : string) :
  In id ids ->
  find (fun w => wallet_id w === id) (fetched s ids) = findWallet s id.
Proof.
  intros Hin. unfold fetched, findWallet.
  assert (Hs : In id (sort ids)) by now apply sortBy_In.
  destruct (List.length (sort ids) =? 0)%nat eqn:E.
  - apply Nat.eqb_eq, length_zero_iff_nil in E. rewrite E in Hs. destruct Hs.
  - change (fun w => wallet_id w === id) with (keyed wallet_id id).
    rewrite find_sortBy. apply find_filter.
    intros x Hx. apply String.eqb_eq in Hx. rewrite Hx.
    now apply existsb_eqb_In.
Qed.

Lemma transfer_locked sw rw amt kind desc meta insufficient (w : World) :
  transfer sw rw amt kind desc meta insufficient w =
  match findWallet (store w) (wallet_id sw),
        findWallet (store w) (wallet_id rw) with
  | Some lockedSender, Some lockedReceiver =>
      if wallet_balance lockedSender <? amt
      then (Err (Error insufficient), w)
      else
        (transaction <-
           TransactionDbAccess.create
             (TransactionDbAccess.mkCreateData
                (wallet_id sw) (wallet_id rw) amt kind (Some desc) meta) ;;
         WalletDbAccess.decrementBalance (wallet_id sw) amt ;;;
         WalletDbAccess.incrementBalance (wallet_id rw) amt ;;;
         TransactionDbAccess.updateStatus (transaction_id transaction) COMPLETED) w
  | _, _ => (Err (Error "Wallet not found"), w)
  end.
Proof.
  unfold transfer, await at 1. rewrite findManyByIds_run.
  fold (fetched (store w) (sort [wallet_id sw; wallet_id rw])).
  rewrite !fetched_find by (apply sortBy_In; simpl; auto).
  destruct (findWallet (store w) (wallet_id sw)) as [ls|];
    destruct (findWallet (store w) (wallet_id rw)) as [lr|]; try reflexivity.
  destruct (wallet_balance ls <? amt); reflexivity.
Qed.

Lemma set_balance_id (x : Wallet) (b : Z) : wallet_id (set_balance x b) = wallet_id x.
Proof. reflexivity. Qed.

Lemma eqb_if_eq {A} (a b : string) (x y : A) :
  a = b -> (if a === b then x else y) = x.
Proof. intros ->. now rewrite String.eqb_refl. Qed.


(** The balances after a debit of [sid] followed by a credit of [rid]. *)
Lemma balances_after_debit_credit (ws : list Wallet) (sid rid : string)
    (ls lr' : Wallet) (amt : Z) :
  find (Prisma.walletHasId sid) ws = Some ls ->
  find (Prisma.walletHasId rid)
    (updateFirst (Prisma.walletHasId sid)
       (fun y => set_balance y (wallet_balance ls - amt)) ws) = Some lr' ->
  forall id,
    match
      find (Prisma.walletHasId id)
        (updateFirst (Prisma.walletHasId rid)
           (fun y => set_balance y (wallet_balance lr' + amt))
           (updateFirst (Prisma.walletHasId sid)
              (fun y => set_balance y (wallet_balance ls - amt)) ws))
    with
    | Some x => wallet_balance x
    | None => 0
    end =
    match find (Prisma.walletHasId id) ws with
    | Some x => wallet_balance x
    | None => 0
    end
    - (if id === sid then amt else 0)
    + (if id === rid then amt else 0).
Proof.
  intros Hs Hr id.
  change Prisma.walletHasId with (keyed wallet_id) in *.
  destruct (String.eqb_spec id rid) as [->|Nr].
  - rewrite find_updateFirst_same by reflexivity. rewrite Hr. simpl.
    destruct (String.eqb_spec rid sid) as [->|Ns].
    + rewrite find_updateFirst_same in Hr by reflexivity.
      rewrite Hs in *. simpl in Hr. inversion Hr; subst. simpl. lia.
    + rewrite find_updateFirst_other in Hr by (reflexivity || assumption).
      rewrite Hr. lia.
  - rewrite find_updateFirst_other by (reflexivity || assumption).
    destruct (String.eqb_spec id sid) as [->|Ns].
    + rewrite find_updateFirst_same by reflexivity.
      rewrite Hs. simpl. lia.
    + rewrite find_updateFirst_other by (reflexivity || assumption).
      destruct (find (keyed wallet_id id) ws); lia.
Qed.

Lemma transfer_ok_inv sw rw amt kind desc meta insufficient w t w' :
  transfer sw rw amt kind desc meta insufficient w = (Ok t, w') ->
  t = mkTransaction (uuids w 0%nat) (wallet_id sw) (wallet_id rw) amt kind
        COMPLETED (Some desc) meta /\
  Transferred (store w) (store w') t /\
  users (store w') = users (store w) /\
  assetTypes (store w') = assetTypes (store w).
Proof.
  rewrite transfer_locked.
  destruct (findWallet (store w) (wallet_id sw)) as [ls|] eqn:Hls;
    [|destruct (findWallet (store w) (wallet_id rw)); discriminate].
  destruct (findWallet (store w) (wallet_id rw)) as [lr|] eqn:Hlr;
    [|discriminate].
  destruct (wallet_balance ls <? amt) eqn:Hfunds; [discriminate|].
  apply Z.ltb_ge in Hfunds.
  intros H.
  apply await_ok_inv in H as (t0 & w1 & Hcreate & H).
  apply await_ok_inv in H as (x1 & w2 & Hdec & H).
  apply await_ok_inv in H as (x2 & w3 & Hinc & Hfin).
  apply transaction_create_ok_inv in Hcreate as (Ht0 & Hfresh & Hs1).
  simpl in Ht0.
  apply wallet_update_ok_inv in Hdec as (ls' & Hls' & _ & Hs2).
  apply wallet_update_ok_inv in Hinc as (lr' & Hlr' & _ & Hs3).
  apply updateStatus_ok_inv in Hfin as (t1 & Ht1 & Ht & Hs4).
  assert (Els : ls' = ls).
  { unfold findWallet in Hls'. rewrite Hs1 in Hls'. simpl in Hls'.
    unfold findWallet in Hls. congruence. }
  subst ls'.
  rewrite Hs1 in Hs2. simpl in Hs2.
  unfold findWallet in Hlr'. rewrite Hs2 in Hlr'. simpl in Hlr'.
  rewrite Hs2 in Hs3. simpl in Hs3.
  rewrite Hs3 in Ht1, Hs4. simpl in Ht1, Hs4.
  assert (Efresh : find (Prisma.transactionHasId (transaction_id t0))
                     (transactions (store w)) = None).
  { rewrite find_existsb in Hfresh.
    destruct (find (Prisma.transactionHasId (transaction_id t0))
                (transactions (store w))); [discriminate | reflexivity]. }
  assert (Eself : Prisma.transactionHasId (transaction_id t0) t0 = true)
    by apply String.eqb_refl.
  rewrite find_app, Efresh in Ht1. simpl in Ht1. rewrite Eself in Ht1.
  inversion Ht1; subst t1.
  rewrite (updateFirst_fresh _ _ _ _ Hfresh Eself) in Hs4.
  assert (Et : t = mkTransaction (uuids w 0%nat) (wallet_id sw) (wallet_id rw)
                     amt kind COMPLETED (Some desc) meta).
  { rewrite Ht, Ht0. reflexivity. }
  split; [exact Et|].
  assert (Eid : transaction_id t = transaction_id t0) by (rewrite Ht; reflexivity).
  assert (Est : set_status t0 COMPLETED = t) by (symmetry; exact Ht).
  rewrite Est in Hs4.
  rewrite Hs4. simpl.
  split; [|split; reflexivity].
  constructor.
  - rewrite Eid. exact Hfresh.
  - rewrite Et. reflexivity.
  - reflexivity.
  - rewrite Et. simpl. rewrite (balanceOf_found _ _ _ Hls). exact Hfunds.
  - intros id. rewrite Et. simpl. unfold balanceOf, findWallet. simpl.
    apply balances_after_debit_credit; assumption.
Qed.


(** ** The engine *)

Lemma Transferred_extends (s s2 s' : Store) (t : Transaction) :
  extends s s2 -> Transferred s2 s' t -> Transferred s s' t.
Proof.
  intros Hext [Hfresh Hst Hledger Hfunds Hbal].
  pose proof (extends_sameBalances _ _ Hext) as Hb.
  pose proof (extends_sameLedger _ _ Hext) as Hl.
  unfold sameLedger in Hl. unfold sameBalances in Hb.
  constructor.
  - now rewrite <- Hl.
  - assumption.
  - now rewrite <- Hl.
  - now rewrite <- Hb.
  - intros id. now rewrite <- Hb.
Qed.

Lemma engine_hit onHit parties kind desc insufficient a amt key w e :
  hit (store w) key = Some e ->
  engine onHit parties kind desc insufficient a amt key w = onHit e w.
Proof.
  intros H. unfold engine, await at 1. now rewrite lookup_run, H.
Qed.

(** Every way a call can end. *)
Lemma engine_cases onHit parties kind desc insufficient a amt key w r w' :
  engine onHit parties kind desc insufficient a amt key w = (r, w') ->
  (exists e, hit (store w) key = Some e /\ onHit e w = (r, w')) \/
  (hit (store w) key = None /\
   ((exists e, r = Err e /\ extends (store w) (store w')) \/
    (exists t,
        r = Ok t /\ Transferred (store w) (store w') t /\
        amount t = amt /\ type_ t = kind /\
        metadata t = TransactionService.metadataOf key))).
Proof.
  intros H. unfold engine, await at 1 in H. rewrite lookup_run in H.
  destruct (hit (store w) key) as [e|] eqn:Hhit; [left; eauto|].
  right. split; [reflexivity|].
  unfold await at 1 in H.
  unfold AssetTypeDbAccess.findByName, Prisma.assetType_findUnique in H.
  unfold await at 1 in H. unfold readStore, resolve at 1 in H.
  destruct (find (fun a0 => assetType_name a0 === a) (assetTypes (store w)))
    as [assetType|].
  2:{ inversion H; subst. left. eexists. split; [reflexivity|].
      apply extends_refl. }
  unfold await at 1 in H.
  unfold UserDbAccess.findTreasuryUser, Prisma.user_findUnique in H.
  unfold await at 1 in H. unfold readStore, resolve at 1 in H.
  destruct (find (fun u => user_email u === "treasury@wallet.internal")
              (users (store w))) as [treasuryUser|].
  2:{ inversion H; subst. left. eexists. split; [reflexivity|].
      apply extends_refl. }
  unfold await at 1 in H. unfold WalletService.getOrCreateWallet in H.
  destruct (WalletDbAccess.getOrCreate (fst (parties treasuryUser))
              (assetType_id assetType) w) as [[sw|e1] w1] eqn:H1;
    apply getOrCreate_spec in H1 as [Hext1 Hfound1].
  2:{ inversion H; subst. left. eauto. }
  unfold await at 1 in H.
  destruct (WalletDbAccess.getOrCreate (snd (parties treasuryUser))
              (assetType_id assetType) w1) as [[rw|e2] w2] eqn:H2;
    apply getOrCreate_spec in H2 as [Hext2 Hfound2].
  2:{ inversion H; subst. left. eexists. split; [reflexivity|].
      eapply extends_trans; eassumption. }
  pose proof (extends_trans _ _ _ Hext1 Hext2) as Hext.
  destruct r as [t|e].
  - right. exists t. split; [reflexivity|].
    apply transaction_ok_inv, transfer_ok_inv in H as (Et & Htr & _).
    split; [eapply Transferred_extends; eassumption|].
    rewrite Et. auto.
  - left. exists e. split; [reflexivity|].
    apply transaction_err_inv in H. now rewrite H.
Qed.


(** ** Calls *)

Lemma perform_hit (c : Call) (w : World) (e : Transaction) :
  hit (store w) (keyOf c) = Some e -> perform c w = (replay c e, w).
Proof.
  destruct c; simpl; intros H.
  - rewrite topUp_engine. now rewrite (engine_hit _ _ _ _ _ _ _ _ _ _ H).
  - rewrite issueBonus_engine. now rewrite (engine_hit _ _ _ _ _ _ _ _ _ _ H).
  - rewrite spend_engine. now rewrite (engine_hit _ _ _ _ _ _ _ _ _ _ H).
Qed.

Lemma perform_cases (c : Call) (w : World) r w' :
  perform c w = (r, w') ->
  (exists e, hit (store w) (keyOf c) = Some e /\ r = replay c e /\ w' = w) \/
  (hit (store w) (keyOf c) = None /\
   ((exists e, r = Err e /\ extends (store w) (store w')) \/
    (exists t,
        r = Ok t /\ Transferred (store w) (store w') t /\
        amount t = amountOf c /\
        metadata t = TransactionService.metadataOf (keyOf c)))).
Proof.
  intros H.
  destruct (hit (store w) (keyOf c)) as [e|] eqn:Hhit.
  - left. rewrite (perform_hit _ _ _ Hhit) in H. inversion H; subst. eauto.
  - right. split; [reflexivity|].
    destruct c; simpl in *;
      [rewrite topUp_engine in H
      |rewrite issueBonus_engine in H
      |rewrite spend_engine in H];
      apply engine_cases in H
        as [(e & He & _) | (_ & [Herr | (t & -> & Htr & Ha & _ & Hm)])];
      try congruence; auto; right; eauto.
Qed.

Lemma hit_found (s : Store) (key : option string) (e : Transaction) :
  hit s key = Some e -> In e (transactions s).
Proof.
  unfold hit. destruct key as [k|]; [|discriminate].
  destruct (truthy (Some k)); [|discriminate].
  intros H. now apply find_some in H.
Qed.

Lemma hit_grows (s s' : Store) (key : option string) (e : Transaction) (new : list Transaction) :
  transactions s' = (transactions s ++ new)%list ->
  hit s key = Some e -> hit s' key = Some e.
Proof.
  unfold hit. intros Hl. destruct key as [k|]; [|discriminate].
  destruct (truthy (Some k)); [|discriminate].
  rewrite Hl, find_app. now intros ->.
Qed.

Lemma perform_keeps_hit (c : Call) (w : World) (key : option string) (e : Transaction) :
  hit (store w) key = Some e ->
  hit (store (snd (perform c w))) key = Some e.
Proof.
  intros H. destruct (perform c w) as [r w'] eqn:Hc. simpl.
  apply perform_cases in Hc
    as [(e' & _ & _ & ->) | (_ & [(x & _ & Hext) | (t & _ & Htr & _)])].
  - assumption.
  - eapply hit_grows; [|exact H].
    rewrite (extends_sameLedger _ _ Hext). symmetry. apply app_nil_r.
  - eapply hit_grows; [|exact H]. apply (transferred_ledger _ _ _ Htr).
Qed.

Lemma after_keeps_hit (calls : list Call) (key : option string) (e : Transaction) :
  forall w, hit (store w) key = Some e -> hit (store (after calls w)) key = Some e.
Proof.
  induction calls as [|c rest IH]; simpl; intros w H; [assumption|].
  apply IH. now apply perform_keeps_hit.
Qed.

Lemma perform_records_key (c : Call) (w : World) (t : Transaction) (w1 : World) :
  truthy (keyOf c) = true ->
  perform c w = (Ok t, w1) ->
  hit (store w1) (keyOf c) = Some t.
Proof.
  intros Hk Hc.
  apply perform_cases in Hc
    as [(e & Hhit & Hr & ->) | (Hmiss & [(x & Hx & _) | (t' & Ht & Htr & _ & Hm)])].
  - destruct c; simpl in Hr; congruence.
  - discriminate.
  - inversion Ht; subst t'. clear Ht.
    unfold hit in *. destruct (keyOf c) as [k|]; [|discriminate].
    rewrite Hk in *.
    rewrite (transferred_ledger _ _ _ Htr), find_app, Hmiss. simpl.
    unfold Prisma.hasIdempotencyKey. rewrite Hm.
    unfold TransactionService.metadataOf. rewrite Hk. simpl.
    now rewrite String.eqb_refl.
Qed.

(** * The transfer equations *)




(** * Rejection of an overdraft *)



(** * Idempotency keys *)

Lemma found_is_hit (w : World) (k : string) (e : Transaction) :
  truthy (Some k) = true ->
  TransactionDbAccess.findByIdempotencyKey k w = (Ok (Some e), w) ->
  hit (store w) (Some k) = Some e.
Proof.
  intros Hk H. rewrite findByIdempotencyKey_run in H. unfold hit.
  rewrite Hk. now inversion H.
Qed.

(** C3: a [topUp] that supplies an idempotency key (a non-empty string, the
    test [if (idempotencyKey)]) which the lookup finds on an existing ledger
    entry rejects with "Idempotency Key Already Exists" and leaves the world
    as it was: no ledger entry is added and no balance is credited. *)
Theorem topUp_with_used_key_is_rejected
    (w : World) (userId assetTypeName : string) (amt : Z)
    (k : string) (e : Transaction) :
  truthy (Some k) = true ->
  TransactionDbAccess.findByIdempotencyKey k w = (Ok (Some e), w) ->
  TransactionService.topUp userId assetTypeName amt (Some k) w =
    (Err (Error "Idempotency Key Already Exists"), w).
Proof.
  intros Hk H.
  apply (perform_hit (TopUp userId assetTypeName amt (Some k)) w e).
  now apply found_is_hit.
Qed.

(** C4: an [issueBonus] or a [spend] that supplies an idempotency key which
    the lookup finds on an existing ledger entry resolves to that entry as
    it is stored and leaves the world as it was. *)
Theorem issueBonus_and_spend_replay_used_key
    (w : World) (userId assetTypeName : string) (amt : Z)
    (desc : option string) (k : string) (e : Transaction) :
  truthy (Some k) = true ->
  TransactionDbAccess.findByIdempotencyKey k w = (Ok (Some e), w) ->
  TransactionService.issueBonus userId assetTypeName amt desc (Some k) w = (Ok e, w) /\
  TransactionService.spend userId assetTypeName amt desc (Some k) w = (Ok e, w).
Proof.
  intros Hk H. apply found_is_hit in H; [|exact Hk]. split.
  - exact (perform_hit (IssueBonus userId assetTypeName amt desc (Some k)) w e H).
  - exact (perform_hit (Spend userId assetTypeName amt desc (Some k)) w e H).
Qed.

(** After [topUp(alice, "GOLD", 100, "order-1")], the same call again. *)
Lemma topUp_with_used_key_witness :
  truthy (Some "order-1") = true /\
  TransactionDbAccess.findByIdempotencyKey "order-1" Scenario.toppedUp =
    (Ok (Some Scenario.deposit), Scenario.toppedUp) /\
  TransactionService.topUp "u-alice" "GOLD" (Scenario.units 100) (Some "order-1")
    Scenario.toppedUp =
    (Err (Error "Idempotency Key Already Exists"), Scenario.toppedUp).
Proof.
  assert (Hk : truthy (Some "order-1") = true) by reflexivity.
  assert (Hf : TransactionDbAccess.findByIdempotencyKey "order-1" Scenario.toppedUp =
               (Ok (Some Scenario.deposit), Scenario.toppedUp))
    by (vm_compute; reflexivity).
  split; [exact Hk|]. split; [exact Hf|].
  exact (topUp_with_used_key_is_rejected Scenario.toppedUp "u-alice" "GOLD"
           (Scenario.units 100) "order-1" Scenario.deposit Hk Hf).
Defined.

(** After [topUp(alice, "GOLD", 100, "order-1")], a bonus and a purchase
    that reuse the key. *)
Lemma issueBonus_and_spend_replay_witness :
  truthy (Some "order-1") = true /\
  TransactionDbAccess.findByIdempotencyKey "order-1" Scenario.toppedUp =
    (Ok (Some Scenario.deposit), Scenario.toppedUp) /\
  TransactionService.issueBonus "u-alice" "GOLD" (Scenario.units 5) (Some "Welcome")
    (Some "order-1") Scenario.toppedUp = (Ok Scenario.deposit, Scenario.toppedUp) /\
  TransactionService.spend "u-alice" "GOLD" (Scenario.units 5) (Some "Welcome")
    (Some "order-1") Scenario.toppedUp = (Ok Scenario.deposit, Scenario.toppedUp).
Proof.
  assert (Hk : truthy (Some "order-1") = true) by reflexivity.
  assert (Hf : TransactionDbAccess.findByIdempotencyKey "order-1" Scenario.toppedUp =
               (Ok (Some Scenario.deposit), Scenario.toppedUp))
    by (vm_compute; reflexivity).
  split; [exact Hk|]. split; [exact Hf|].
  exact (issueBonus_and_spend_replay_used_key Scenario.toppedUp "u-alice" "GOLD"
           (Scenario.units 5) (Some "Welcome") "order-1" Scenario.deposit Hk Hf).
Defined.

(** C10: the lookup does not look at who wrote the key.  Once any of the
    three operations has resolved to a ledger entry [t] for a call made with
    a key, then after any further calls an [issueBonus] or a [spend] made
    with that key, for whatever user, asset and amount, resolves to [t] and
    changes nothing. *)
Theorem idempotency_lookup_is_global
    (c : Call) (w w1 : World) (t : Transaction) (later : list Call)
    (userId assetTypeName : string) (amt : Z) (desc : option string) :
  truthy (keyOf c) = true ->
  perform c w = (Ok t, w1) ->
  TransactionService.issueBonus userId assetTypeName amt desc (keyOf c)
    (after later w1) = (Ok t, after later w1) /\
  TransactionService.spend userId assetTypeName amt desc (keyOf c)
    (after later w1) = (Ok t, after later w1).
Proof.
  intros Hk Hc.
  pose proof (perform_records_key c w t w1 Hk Hc) as Hhit.
  apply (after_keeps_hit later) in Hhit.
  split.
  - exact (perform_hit (IssueBonus userId assetTypeName amt desc (keyOf c)) _ _ Hhit).
  - exact (perform_hit (Spend userId assetTypeName amt desc (keyOf c)) _ _ Hhit).
Qed.

(** A key first used by a top-up (a DEPOSIT), then, after a purchase by
    alice, reused by a purchase of another user for another asset. *)
Lemma idempotency_lookup_is_global_witness :
  let c := TopUp "u-alice" "GOLD" (Scenario.units 100) (Some "order-1") in
  let later := [Spend "u-alice" "GOLD" (Scenario.units 30) (Some "sword") None] in
  truthy (keyOf c) = true /\
  perform c Scenario.world = (Ok Scenario.deposit, Scenario.toppedUp) /\
  type_ Scenario.deposit = DEPOSIT /\
  TransactionService.spend "u-bob" "DIAMOND" (Scenario.units 7) (Some "shield")
    (Some "order-1") (after later Scenario.toppedUp) =
    (Ok Scenario.deposit, after later Scenario.toppedUp).
Proof.
  intros c later.
  assert (Hk : truthy (keyOf c) = true) by reflexivity.
  assert (Hc : perform c Scenario.world = (Ok Scenario.deposit, Scenario.toppedUp))
    by (vm_compute; reflexivity).
  split; [exact Hk|]. split; [exact Hc|]. split; [reflexivity|].
  exact (proj2 (idempotency_lookup_is_global c Scenario.world Scenario.toppedUp
                  Scenario.deposit later "u-bob" "DIAMOND" (Scenario.units 7)
                  (Some "shield") Hk Hc)).
Defined.

(** * Ledger entries are COMPLETED *)

Lemma perform_ledger (c : Call) (w : World) (r : Result Transaction) (w' : World) :
  ledgerCompleted (store w) ->
  perform c w = (r, w') ->
  ledgerCompleted (store w') /\
  (forall t, r = Ok t -> status t = COMPLETED /\ In t (transactions (store w'))) /\
  (forall t, r = Ok t -> hit (store w) (keyOf c) = None ->
             Transferred (store w) (store w') t).
Proof.
  intros Hinv Hc. unfold ledgerCompleted in *.
  apply perform_cases in Hc
    as [(e & Hhit & Hr & ->) | (Hmiss & [(x & -> & Hext) | (t & -> & Htr & _)])].
  - split; [assumption|]. split.
    + intros t Ht. apply hit_found in Hhit.
      assert (t = e) by (destruct c; simpl in Hr; congruence). subst t.
      split; [|assumption].
      rewrite Forall_forall in Hinv. now apply Hinv.
    + intros t _ Hmiss. congruence.
  - rewrite (extends_sameLedger _ _ Hext).
    split; [assumption|]. split; discriminate.
  - rewrite (transferred_ledger _ _ _ Htr).
    split; [|split].
    + apply Forall_app. split; [assumption|].
      constructor; [apply (transferred_status _ _ _ Htr) | constructor].
    + intros t' Ht'. inversion Ht'; subst t'.
      split; [apply (transferred_status _ _ _ Htr)|].
      apply in_or_app. right. now left.
    + intros t' Ht' _. inversion Ht'; subst t'. exact Htr.
Qed.




(** * Fetching wallets in id order *)

Lemma sort_nil_iff (ids : list string) : sort ids = [] <-> ids = [].
Proof.
  split; intros H.
  - destruct ids as [|x rest]; [reflexivity|].
    assert (Hin : In x (sort (x :: rest))) by (apply sortBy_In; now left).
    rewrite H in Hin. destruct Hin.
  - now subst.
Qed.

Lemma fetched_In (s : Store) (ids : list string) (x : Wallet) :
  In x (fetched s ids) <-> In x (wallets s) /\ In (wallet_id x) ids.
Proof.
  unfold fetched.
  destruct (List.length (sort ids) =? 0)%nat eqn:E.
  - apply Nat.eqb_eq, length_zero_iff_nil in E.
    apply (proj1 (sort_nil_iff ids)) in E. subst.
    split; [intros [] | intros [_ []]].
  - rewrite sortBy_In, filter_In, existsb_eqb_In.
    unfold sort. now rewrite sortBy_In.
Qed.

Lemma fetched_Permutation (s : Store) (ids ids' : list string) :
  Permutation ids ids' -> fetched s ids' = fetched s ids.
Proof.
  intros HP. unfold fetched.
  assert (Hlen : List.length (sort ids') = List.length (sort ids)).
  { unfold sort.
    rewrite (Permutation_length (sortBy_Permutation _ ids')).
    rewrite (Permutation_length (sortBy_Permutation _ ids)).
    symmetry. now apply Permutation_length. }
  rewrite Hlen.
  destruct (List.length (sort ids) =? 0)%nat; [reflexivity|].
  f_equal. apply filter_ext. intros x.
  apply existsb_eqb_same_members. intros y. unfold sort.
  rewrite !sortBy_In. split; apply Permutation_in;
    [symmetry; exact HP | exact HP].
Qed.

(** C7: [findManyByIds] resolves to the wallets whose id is among the ids
    given, in ascending order of id, and to the same list for every order in
    which the ids are given; it changes nothing. *)
Theorem findManyByIds_is_sorted_by_id (ids : list string) (w : World) :
  exists rows,
    WalletDbAccess.findManyByIds ids w = (Ok rows, w) /\
    StronglySorted (ascending wallet_id) rows /\
    (forall x, In x rows <-> In x (wallets (store w)) /\ In (wallet_id x) ids) /\
    (forall ids', Permutation ids ids' ->
                  WalletDbAccess.findManyByIds ids' w = (Ok rows, w)).
Proof.
  exists (fetched (store w) ids).
  split; [apply findManyByIds_run|].
  split.
  - unfold fetched. destruct (List.length (sort ids) =? 0)%nat;
      [constructor | apply sortBy_sorted].
  - split; [apply fetched_In|].
    intros ids' HP. rewrite findManyByIds_run.
    fold (fetched (store w) ids'). now rewrite (fetched_Permutation _ _ _ HP).
Qed.

(** The Treasury's and alice's wallet, asked for in either order. *)
Lemma findManyByIds_is_sorted_by_id_witness :
  let alice := mkWallet "w-alice-gold" "u-alice" "a-gold" (Scenario.units 50) in
  let treasury :=
    mkWallet "w-treasury-gold" "u-treasury" "a-gold" (Scenario.units 1000000) in
  WalletDbAccess.findManyByIds ["w-treasury-gold"; "w-alice-gold"] Scenario.world =
    (Ok [alice; treasury], Scenario.world) /\
  WalletDbAccess.findManyByIds ["w-alice-gold"; "w-treasury-gold"] Scenario.world =
    (Ok [alice; treasury], Scenario.world).
Proof.
  intros alice treasury.
  destruct (findManyByIds_is_sorted_by_id ["w-treasury-gold"; "w-alice-gold"]
              Scenario.world) as (rows & Hrows & _ & _ & Hperm).
  assert (E : rows = [alice; treasury]).
  { vm_compute in Hrows. now inversion Hrows. }
  subst rows. split; [exact Hrows|].
  apply Hperm. apply perm_swap.
Defined.

(** * Validation of the amount *)

(** C5, as stated, fails: [topUp] itself does not look at the sign of the
    amount.  Called with -5 GOLD it resolves, having looked up the asset and
    the Treasury, written a ledger entry of that amount and moved it: alice
    goes from 50 to 45, the Treasury from 1,000,000 to 1,000,005. *)
Lemma topUp_accepts_negative_amount :
  exists t w',
    TransactionService.topUp "u-alice" "GOLD" (Scenario.units (-5)) None
      Scenario.world = (Ok t, w') /\
    amount t = Scenario.units (-5) /\
    transactions (store w') = [t] /\
    balanceOf (store w') "w-alice-gold" = Scenario.units 45 /\
    balanceOf (store w') "w-treasury-gold" = Scenario.units 1000005.
Proof.
  eexists. eexists. split; [vm_compute; reflexivity|].
  repeat split.
Qed.

(** C5, amended: the amount is validated by the three POST handlers, not by
    the operations.  A request whose amount is zero or negative is answered
    with 400 and the world is left as it was, no operation having been
    called; when the required fields are present the error is
    "Amount must be greater than 0". *)
Theorem handlers_reject_nonpositive_amount
    (body : Routes.Body) (amt : Z) (w : World) :
  Routes.body_amount body = Some amt ->
  amt <= 0 ->
  (exists error,
      Routes.topUp body w = (Routes.BadRequest error, w) /\
      (truthy (Routes.body_userId body) = true ->
       truthy (Routes.body_assetType body) = true ->
       error = "Amount must be greater than 0")) /\
  (exists error,
      Routes.bonus body w = (Routes.BadRequest error, w) /\
      (truthy (Routes.body_userId body) = true ->
       truthy (Routes.body_assetType body) = true ->
       error = "Amount must be greater than 0")) /\
  (exists error,
      Routes.spend body w = (Routes.BadRequest error, w) /\
      (truthy (Routes.body_userId body) = true ->
       truthy (Routes.body_assetType body) = true ->
       truthy (Routes.body_description body) = true ->
       error = "Amount must be greater than 0")).
Proof.
  intros Hamt Hle. apply Z.leb_le in Hle.
  unfold Routes.topUp, Routes.bonus, Routes.spend. rewrite Hamt.
  destruct (Routes.body_userId body) as [u|];
    [|repeat split; eexists; (split; [reflexivity | discriminate])].
  destruct (Routes.body_assetType body) as [a|];
    [|repeat split; eexists; (split; [reflexivity | discriminate])].
  destruct (truthy (Some u)) eqn:Eu;
    [|repeat split; eexists; (split; [reflexivity | discriminate])].
  destruct (truthy (Some a)) eqn:Ea;
    [|repeat split; eexists; (split; [reflexivity | discriminate])].
  simpl. rewrite Hle.
  split; [eexists; split; [reflexivity | auto]|].
  split; [eexists; split; [reflexivity | auto]|].
  destruct (truthy (Routes.body_description body)); simpl.
  - eexists; split; [reflexivity | auto].
  - eexists; split; [reflexivity | discriminate].
Qed.

Lemma handlers_reject_nonpositive_amount_witness :
  let body := Routes.mkBody (Some "u-alice") (Some "GOLD") (Some (-5)) (Some "item") None in
  Routes.body_amount body = Some (-5) /\
  -5 <= 0 /\
  Routes.topUp body Scenario.world =
    (Routes.BadRequest "Amount must be greater than 0", Scenario.world) /\
  Routes.bonus body Scenario.world =
    (Routes.BadRequest "Amount must be greater than 0", Scenario.world) /\
  Routes.spend body Scenario.world =
    (Routes.BadRequest "Amount must be greater than 0", Scenario.world).
Proof.
  intros body.
  assert (Hamt : Routes.body_amount body = Some (-5)) by reflexivity.
  assert (Hle : -5 <= 0) by lia.
  destruct (handlers_reject_nonpositive_amount body (-5) Scenario.world Hamt Hle)
    as ((e1 & H1 & M1) & (e2 & H2 & M2) & (e3 & H3 & M3)).
  rewrite (M1 eq_refl eq_refl) in H1.
  rewrite (M2 eq_refl eq_refl) in H2.
  rewrite (M3 eq_refl eq_refl eq_refl) in H3.
  split; [exact Hamt|]. split; [exact Hle|].
  split; [exact H1|]. split; [exact H2 | exact H3].
Defined.

(** * The debit *)






(** * The rest of the service *)

(** ** What a computation keeps *)

Lemma keeps_resolve (I : Store -> Prop) {A} (a : A) : keeps I (resolve a).
Proof. intros w r w' H E. inversion E; subst. exact H. Qed.

Lemma keeps_throw (I : Store -> Prop) {A} (e : Exception) : keeps I (@throw A e).
Proof. intros w r w' H E. inversion E; subst. exact H. Qed.

Lemma keeps_await (I : Store -> Prop) {A B} (m : Promise A) (k : A -> Promise B) :
  keeps I m -> (forall a, keeps I (k a)) -> keeps I (await m k).
Proof.
  intros Hm Hk w r w' H E. unfold await in E.
  destruct (m w) as [[a|e] w1] eqn:Em.
  - eapply Hk; [|exact E]. eapply Hm; eassumption.
  - inversion E; subst. eapply Hm; eassumption.
Qed.

Lemma keeps_transaction (I : Store -> Prop) {A} (body : Promise A) :
  keeps I body -> keeps I (transaction body).
Proof.
  intros Hb w r w' H E. unfold transaction in E.
  destruct (body w) as [[a|e] w1] eqn:Eb.
  - inversion E; subst. eapply Hb; eassumption.
  - inversion E; subst. exact H.
Qed.

Lemma keeps_readOnly (I : Store -> Prop) {A} (m : Promise A) :
  readOnly m -> keeps I m.
Proof.
  intros Hm w r w' H E. specialize (Hm w). rewrite E in Hm. simpl in Hm.
  now subst.
Qed.

Lemma readOnly_resolve {A} (a : A) : readOnly (resolve a).
Proof. intros w. reflexivity. Qed.

Lemma readOnly_throw {A} (e : Exception) : readOnly (@throw A e).
Proof. intros w. reflexivity. Qed.

Lemma readOnly_readStore : readOnly readStore.
Proof. intros w. reflexivity. Qed.

Lemma readOnly_await {A B} (m : Promise A) (k : A -> Promise B) :
  readOnly m -> (forall a, readOnly (k a)) -> readOnly (await m k).
Proof.
  intros Hm Hk w. unfold await. specialize (Hm w).
  destruct (m w) as [[a|e] w1]; simpl in Hm; subst; [apply Hk | reflexivity].
Qed.

(** ** Rows, once more *)

Lemma map_updateFirst {A B} (g : A -> B) (p : A -> bool) (f : A -> A) (l : list A) :
  (forall x, g (f x) = g x) -> map g (updateFirst p f l) = map g l.
Proof.
  intros Hf. induction l as [|x l IH]; simpl; [reflexivity|].
  destruct (p x); simpl; [now rewrite Hf | now rewrite IH].
Qed.

Lemma existsb_updateFirst {A} (q p : A -> bool) (f : A -> A) (l : list A) :
  (forall x, q (f x) = q x) -> existsb q (updateFirst p f l) = existsb q l.
Proof.
  intros Hf. induction l as [|x l IH]; simpl; [reflexivity|].
  destruct (p x); simpl; [now rewrite Hf | now rewrite IH].
Qed.

Lemma Forall_updateFirst {A} (P : A -> Prop) (p : A -> bool) (f : A -> A) (l : list A) :
  (forall x, P x -> P (f x)) -> Forall P l -> Forall P (updateFirst p f l).
Proof.
  intros Hf. induction l as [|x l IH]; simpl; intros H; [constructor|].
  inversion H; subst. destruct (p x); constructor; auto.
Qed.

Lemma existsb_false_not_In {A B} (g : A -> B) (q : A -> bool) (b : B) (l : list A) :
  (forall x, g x = b -> q x = true) ->
  existsb q l = false -> ~ In b (map g l).
Proof.
  intros Hq Hl Hin. apply in_map_iff in Hin as (x & Hx & Hin).
  assert (existsb q l = true) by (apply existsb_exists; eauto).
  congruence.
Qed.

Lemma NoDup_snoc {A} (l : list A) (x : A) :
  NoDup l -> ~ In x l -> NoDup (l ++ [x]).
Proof.
  intros Hl Hx. apply NoDup_app; [assumption | repeat constructor; auto |].
  intros y Hy [E|[]]. now subst.
Qed.

(** ** The constraints are kept *)

Lemma keeps_Integrity_wallet_create (userId assetTypeId : string) (b : Z) :
  keeps Integrity (Prisma.wallet_create userId assetTypeId b).
Proof.
  intros w r w' H E. unfold Prisma.wallet_create, await, uuid, readStore,
    writeStore, resolve, throw in E. simpl in E.
  destruct (existsb (Prisma.walletHasId (uuids w 0%nat)) (wallets (store w)))
    eqn:Eid; simpl in E; [inversion E; subst; exact H|].
  destruct (existsb (Prisma.walletHasUserAndAssetType userId assetTypeId)
              (wallets (store w))) eqn:Ekey; simpl in E;
    [inversion E; subst; exact H|].
  destruct (existsb (fun u => user_id u === userId) (users (store w))) eqn:Eu;
    simpl in E; [|inversion E; subst; exact H].
  destruct (existsb (fun a => assetType_id a === assetTypeId)
              (assetTypes (store w))) eqn:Ea;
    simpl in E; [|inversion E; subst; exact H].
  destruct (inDecimalRange b); simpl in E; [|inversion E; subst; exact H].
  inversion E; subst. clear E. simpl.
  destruct H as [Hids Hkeys Hrefs Htids Htrefs].
  constructor; simpl.
  - rewrite map_app. apply NoDup_snoc; [assumption|].
    apply (existsb_false_not_In wallet_id (Prisma.walletHasId (uuids w 0%nat)));
      [|assumption].
    intros x Hx. apply String.eqb_eq. exact Hx.
  - rewrite map_app. apply NoDup_snoc; [assumption|].
    apply (existsb_false_not_In walletKey
             (Prisma.walletHasUserAndAssetType userId assetTypeId));
      [|assumption].
    intros x Hx. unfold walletKey in Hx. inversion Hx.
    unfold Prisma.walletHasUserAndAssetType. now rewrite !String.eqb_refl.
  - apply Forall_app. split; [assumption|].
    constructor; [|constructor]. simpl. split; assumption.
  - assumption.
  - eapply Forall_impl; [|exact Htrefs].
    intros t [Hs Hr]. rewrite !existsb_app, Hs, Hr. split; reflexivity.
Qed.

Lemma keeps_Integrity_wallet_update (id : string) (f : Z -> Z) :
  keeps Integrity (Prisma.wallet_update id f).
Proof.
  intros w r w' H E. unfold Prisma.wallet_update, await, readStore,
    writeStore, resolve, throw in E.
  destruct (find (Prisma.walletHasId id) (wallets (store w))) as [x|];
    [|inversion E; subst; exact H].
  destruct (inDecimalRange (f (wallet_balance x)));
    [|inversion E; subst; exact H].
  inversion E; subst. clear E. simpl.
  destruct H as [Hids Hkeys Hrefs Htids Htrefs].
  constructor; simpl.
  - now rewrite map_updateFirst by reflexivity.
  - now rewrite map_updateFirst by reflexivity.
  - apply Forall_updateFirst; [|assumption]. intros y Hy. exact Hy.
  - assumption.
  - eapply Forall_impl; [|exact Htrefs].
    intros t [Hs Hr]. now rewrite !existsb_updateFirst by reflexivity.
Qed.

Lemma keeps_Integrity_transaction_create sender receiver amt kind st desc meta :
  keeps Integrity (Prisma.transaction_create sender receiver amt kind st desc meta).
Proof.
  intros w r w' H E. unfold Prisma.transaction_create, await, uuid, readStore,
    writeStore, resolve, throw in E. simpl in E.
  destruct (existsb (Prisma.transactionHasId (uuids w 0%nat))
              (transactions (store w))) eqn:Eid;
    [inversion E; subst; exact H|].
  destruct (existsb (Prisma.walletHasId sender) (wallets (store w))) eqn:Es;
    simpl in E; [|inversion E; subst; exact H].
  destruct (existsb (Prisma.walletHasId receiver) (wallets (store w))) eqn:Er;
    simpl in E; [|inversion E; subst; exact H].
  destruct (inDecimalRange amt); simpl in E; [|inversion E; subst; exact H].
  inversion E; subst. clear E. simpl.
  destruct H as [Hids Hkeys Hrefs Htids Htrefs].
  constructor; simpl; try assumption.
  - rewrite map_app. apply NoDup_snoc; [assumption|].
    apply (existsb_false_not_In transaction_id
             (Prisma.transactionHasId (uuids w 0%nat))); [|assumption].
    intros x Hx. apply String.eqb_eq. exact Hx.
  - apply Forall_app. split; [assumption|].
    constructor; [|constructor]. simpl. split; assumption.
Qed.

Lemma keeps_Integrity_transaction_update (id : string) (st : TransactionStatus) :
  keeps Integrity (Prisma.transaction_update id st).
Proof.
  intros w r w' H E. unfold Prisma.transaction_update, await, readStore,
    writeStore, resolve, throw in E.
  destruct (find (Prisma.transactionHasId id) (transactions (store w))) as [t|];
    [|inversion E; subst; exact H].
  inversion E; subst. clear E. simpl.
  destruct H as [Hids Hkeys Hrefs Htids Htrefs].
  constructor; simpl; try assumption.
  - now rewrite map_updateFirst by reflexivity.
  - apply Forall_updateFirst; [|assumption]. intros y Hy. exact Hy.
Qed.

Lemma keeps_Integrity_getOrCreate (userId assetTypeId : string) :
  keeps Integrity (WalletDbAccess.getOrCreate userId assetTypeId).
Proof.
  unfold WalletDbAccess.getOrCreate, Prisma.wallet_upsert.
  apply keeps_await; [apply keeps_readOnly, readOnly_readStore|].
  intros s. destruct (find _ _);
    [apply keeps_resolve | apply keeps_Integrity_wallet_create].
Qed.

Lemma readOnly_findManyByIds (ids : list string) :
  readOnly (WalletDbAccess.findManyByIds ids).
Proof. intros w. now rewrite findManyByIds_run. Qed.

Lemma keeps_Integrity_transfer sw rw amt kind desc meta insufficient :
  keeps Integrity (transfer sw rw amt kind desc meta insufficient).
Proof.
  unfold transfer.
  apply keeps_await; [apply keeps_readOnly, readOnly_findManyByIds|].
  intros rows.
  destruct (find _ rows); [|apply keeps_throw].
  destruct (find _ rows); [|apply keeps_throw].
  destruct (_ <? _); [apply keeps_throw|].
  apply keeps_await; [apply keeps_Integrity_transaction_create|]. intros t.
  apply keeps_await; [apply keeps_Integrity_wallet_update|]. intros _.
  apply keeps_await; [apply keeps_Integrity_wallet_update|]. intros _.
  apply keeps_Integrity_transaction_update.
Qed.

Lemma readOnly_lookup (key : option string) : readOnly (lookup key).
Proof. intros w. now rewrite lookup_run. Qed.

Lemma keeps_Integrity_engine onHit parties kind desc insufficient a amt key :
  (forall e, readOnly (onHit e)) ->
  keeps Integrity (engine onHit parties kind desc insufficient a amt key).
Proof.
  intros Hhit. unfold engine.
  apply keeps_await; [apply keeps_readOnly, readOnly_lookup|].
  intros [e|]; [apply keeps_readOnly, Hhit|].
  apply keeps_await; [apply keeps_readOnly; intros w; reflexivity|].
  intros [assetType|]; [|apply keeps_throw].
  apply keeps_await; [apply keeps_readOnly; intros w; reflexivity|].
  intros [treasuryUser|]; [|apply keeps_throw].
  apply keeps_await; [apply keeps_Integrity_getOrCreate|]. intros sw.
  apply keeps_await; [apply keeps_Integrity_getOrCreate|]. intros rw.
  apply keeps_transaction, keeps_Integrity_transfer.
Qed.

Lemma keeps_Integrity_perform (c : Call) : keeps Integrity (perform c).
Proof.
  destruct c; simpl;
    [rewrite topUp_engine | rewrite issueBonus_engine | rewrite spend_engine];
    apply keeps_Integrity_engine; intros e w; reflexivity.
Qed.

(** ** An applied transfer, row by row *)

Lemma getOrCreate_found (userId assetTypeId : string) w x w' :
  WalletDbAccess.getOrCreate userId assetTypeId w = (Ok x, w') ->
  find (Prisma.walletHasUserAndAssetType userId assetTypeId) (wallets (store w')) =
    Some x.
Proof.
  unfold WalletDbAccess.getOrCreate, Prisma.wallet_upsert, await, readStore,
    resolve.
  destruct (find (Prisma.walletHasUserAndAssetType userId assetTypeId)
              (wallets (store w))) as [y|] eqn:E.
  - intros H. inversion H; subst. exact E.
  - intros H. unfold Prisma.wallet_create, await, uuid, readStore, writeStore,
      resolve, throw in H. simpl in H.
    repeat match type of H with
           | (if ?b then _ else _) _ = _ => destruct b; [discriminate|]
           | (if ?b then _ else _) = _ => destruct b; [discriminate|]
           end.
    inversion H; subst. simpl. rewrite find_app, E. simpl.
    unfold Prisma.walletHasUserAndAssetType. simpl.
    now rewrite !String.eqb_refl.
Qed.

Lemma extends_find (s s' : Store) (p : Wallet -> bool) (x : Wallet) :
  extends s s' -> find p (wallets s) = Some x -> find p (wallets s') = Some x.
Proof.
  intros (_ & _ & _ & extra & Hw & _) H. now rewrite Hw, find_app, H.
Qed.

Lemma transfer_ok_store sw rw amt kind desc meta insufficient w t w' :
  transfer sw rw amt kind desc meta insufficient w = (Ok t, w') ->
  t = mkTransaction (uuids w 0%nat) (wallet_id sw) (wallet_id rw) amt kind
        COMPLETED (Some desc) meta /\
  existsb (Prisma.transactionHasId (transaction_id t)) (transactions (store w)) = false /\
  amt <= balanceOf (store w) (wallet_id sw) /\
  (exists x, findWallet (store w) (wallet_id sw) = Some x) /\
  (exists x, findWallet (store w) (wallet_id rw) = Some x) /\
  store w' =
    mkStore (users (store w)) (assetTypes (store w))
      (credited (wallet_id rw) amt (debited (wallet_id sw) amt (wallets (store w))))
      (transactions (store w) ++ [t]).
Proof.
  rewrite transfer_locked.
  destruct (findWallet (store w) (wallet_id sw)) as [ls|] eqn:Hls;
    [|destruct (findWallet (store w) (wallet_id rw)); discriminate].
  destruct (findWallet (store w) (wallet_id rw)) as [lr|] eqn:Hlr;
    [|discriminate].
  destruct (wallet_balance ls <? amt) eqn:Hfunds; [discriminate|].
  apply Z.ltb_ge in Hfunds.
  intros H.
  apply await_ok_inv in H as (t0 & w1 & Hcreate & H).
  apply await_ok_inv in H as (x1 & w2 & Hdec & H).
  apply await_ok_inv in H as (x2 & w3 & Hinc & Hfin).
  apply transaction_create_ok_inv in Hcreate as (Ht0 & Hfresh & Hs1).
  simpl in Ht0.
  apply wallet_update_ok_inv in Hdec as (ls' & Hls' & _ & Hs2).
  apply wallet_update_ok_inv in Hinc as (lr' & Hlr' & _ & Hs3).
  apply updateStatus_ok_inv in Hfin as (t1 & Ht1 & Ht & Hs4).
  assert (Els : ls' = ls).
  { unfold findWallet in Hls'. rewrite Hs1 in Hls'. simpl in Hls'.
    unfold findWallet in Hls. congruence. }
  subst ls'.
  rewrite Hs1 in Hs2. simpl in Hs2.
  unfold findWallet in Hlr'. rewrite Hs2 in Hlr'. simpl in Hlr'.
  rewrite Hs2 in Hs3. simpl in Hs3.
  rewrite Hs3 in Ht1, Hs4. simpl in Ht1, Hs4.
  assert (Efresh : find (Prisma.transactionHasId (transaction_id t0))
                     (transactions (store w)) = None).
  { rewrite find_existsb in Hfresh.
    destruct (find (Prisma.transactionHasId (transaction_id t0))
                (transactions (store w))); [discriminate | reflexivity]. }
  assert (Eself : Prisma.transactionHasId (transaction_id t0) t0 = true)
    by apply String.eqb_refl.
  rewrite find_app, Efresh in Ht1. simpl in Ht1. rewrite Eself in Ht1.
  inversion Ht1; subst t1.
  rewrite (updateFirst_fresh _ _ _ _ Hfresh Eself) in Hs4.
  assert (Et : t = mkTransaction (uuids w 0%nat) (wallet_id sw) (wallet_id rw)
                     amt kind COMPLETED (Some desc) meta).
  { rewrite Ht, Ht0. reflexivity. }
  assert (Eid : transaction_id t = transaction_id t0) by (rewrite Ht; reflexivity).
  assert (Est : set_status t0 COMPLETED = t) by (symmetry; exact Ht).
  rewrite Est in Hs4.
  split; [exact Et|].
  split; [rewrite Eid; exact Hfresh|].
  split; [rewrite (balanceOf_found _ _ _ Hls); exact Hfunds|].
  split; [eauto|]. split; [eauto|].
  rewrite Hs4. unfold credited, debited. unfold findWallet in Hls.
  rewrite Hls, Hlr'. reflexivity.
Qed.

Lemma engine_applied onHit parties kind desc insufficient a amt key w t w' :
  hit (store w) key = None ->
  engine onHit parties kind desc insufficient a amt key w = (Ok t, w') ->
  exists assetType treasuryUser,
    AssetTypeDbAccess.findByName a w = (Ok (Some assetType), w) /\
    UserDbAccess.findTreasuryUser w = (Ok (Some treasuryUser), w) /\
    amount t = amt /\
    type_ t = kind /\
    metadata t = TransactionService.metadataOf key /\
    Applied (store w) (store w') t
      (fst (parties treasuryUser)) (snd (parties treasuryUser))
      (assetType_id assetType).
Proof.
  intros Hmiss H. unfold engine, await at 1 in H.
  rewrite lookup_run, Hmiss in H.
  unfold await at 1 in H.
  destruct (AssetTypeDbAccess.findByName a w) as [[[assetType|]|e] wa] eqn:Ea;
    try discriminate.
  assert (wa = w).
  { unfold AssetTypeDbAccess.findByName, Prisma.assetType_findUnique, await,
      readStore, resolve in Ea. now inversion Ea. }
  subst wa.
  unfold await at 1 in H.
  destruct (UserDbAccess.findTreasuryUser w) as [[[treasuryUser|]|e] wt] eqn:Et;
    try discriminate.
  assert (wt = w).
  { unfold UserDbAccess.findTreasuryUser, Prisma.user_findUnique, await,
      readStore, resolve in Et. now inversion Et. }
  subst wt.
  unfold await at 1 in H. unfold WalletService.getOrCreateWallet in H.
  destruct (WalletDbAccess.getOrCreate (fst (parties treasuryUser))
              (assetType_id assetType) w) as [[sw|e1] w1] eqn:H1;
    [|discriminate].
  unfold await at 1 in H.
  destruct (WalletDbAccess.getOrCreate (snd (parties treasuryUser))
              (assetType_id assetType) w1) as [[rw|e2] w2] eqn:H2;
    [|discriminate].
  pose proof (getOrCreate_found _ _ _ _ _ H1) as F1.
  pose proof (getOrCreate_found _ _ _ _ _ H2) as F2.
  pose proof (proj1 (getOrCreate_spec _ _ _ _ _ H1)) as X1.
  pose proof (proj1 (getOrCreate_spec _ _ _ _ _ H2)) as X2.
  apply transaction_ok_inv, transfer_ok_store in H
    as (Ett & Hfresh & Hfunds & Hs & Hr & Hstore).
  exists assetType, treasuryUser.
  split; [reflexivity|]. split; [reflexivity|].
  rewrite Ett at 1 2 3. simpl.
  split; [reflexivity|]. split; [reflexivity|]. split; [reflexivity|].
  assert (Esid : senderWalletId t = wallet_id sw) by (rewrite Ett; reflexivity).
  assert (Erid : receiverWalletId t = wallet_id rw) by (rewrite Ett; reflexivity).
  assert (Eamt : amount t = amt) by (rewrite Ett; reflexivity).
  apply (applied _ _ _ _ _ _ (store w2) sw rw).
  - eapply extends_trans; eassumption.
  - intros HI. eapply keeps_Integrity_getOrCreate; [|exact H2].
    eapply keeps_Integrity_getOrCreate; [|exact H1]. exact HI.
  - eapply extends_find; eassumption.
  - exact F2.
  - exact Esid.
  - exact Erid.
  - rewrite Ett. reflexivity.
  - exact Hfresh.
  - rewrite Eamt, Esid. exact Hfunds.
  - rewrite Esid. exact Hs.
  - rewrite Erid. exact Hr.
  - rewrite Esid, Erid, Eamt. exact Hstore.
Qed.

Lemma perform_applied (c : Call) (w : World) (t : Transaction) (w' : World) :
  hit (store w) (keyOf c) = None ->
  perform c w = (Ok t, w') ->
  exists assetType treasuryUser,
    AssetTypeDbAccess.findByName (assetOf c) w = (Ok (Some assetType), w) /\
    UserDbAccess.findTreasuryUser w = (Ok (Some treasuryUser), w) /\
    amount t = amountOf c /\
    Applied (store w) (store w') t
      (fst (partiesOf c treasuryUser)) (snd (partiesOf c treasuryUser))
      (assetType_id assetType).
Proof.
  intros Hmiss H.
  destruct c; simpl in *;
    [rewrite topUp_engine in H
    |rewrite issueBonus_engine in H
    |rewrite spend_engine in H];
    apply engine_applied in H; [|assumption| |assumption| |assumption];
    destruct H as (a0 & tu & Ha & Ht & Hamt & _ & _ & Happ);
    exists a0, tu; auto.
Qed.


(** A POST handler either answers without calling the service, or answers
    with what one call, of a positive amount, returned. *)
Lemma handle_cases (q : Request) (w : World) :
  (exists error, handle q w = (Routes.BadRequest error, w)) \/
  (exists c userId assetType withDescription,
      0 < amountOf c /\
      handle q w = Routes.respond userId assetType withDescription (perform c w)).
Proof.
  destruct q as [body|body|body]; simpl;
    unfold Routes.topUp, Routes.bonus, Routes.spend;
    destruct (Routes.body_userId body) as [u|]; eauto;
    destruct (Routes.body_assetType body) as [a|]; eauto;
    destruct (Routes.body_amount body) as [amt|]; eauto;
    match goal with
    | |- context [if ?b then _ else _] => destruct b; eauto
    end;
    destruct (amt <=? 0) eqn:E; eauto;
    apply Z.leb_gt in E; right.
  - exists (TopUp u a amt (Routes.body_idempotencyKey body)), u, a, false.
    split; [exact E | reflexivity].
  - exists (IssueBonus u a amt (Routes.body_description body)
              (Routes.body_idempotencyKey body)), u, a, true.
    split; [exact E | reflexivity].
  - exists (Spend u a amt (Routes.body_description body)
              (Routes.body_idempotencyKey body)), u, a, true.
    split; [exact E | reflexivity].
Qed.

Lemma respond_world userId assetType withDescription (r : Result Transaction * World) :
  snd (Routes.respond userId assetType withDescription r) = snd r.
Proof. destruct r as [[t|e] w]; reflexivity. Qed.

(** ** Sums of balances *)

Lemma sumBalances_app (l1 l2 : list Wallet) :
  sumBalances (l1 ++ l2) = sumBalances l1 + sumBalances l2.
Proof.
  unfold sumBalances. induction l1 as [|x l1 IH]; simpl; [reflexivity|].
  rewrite IH. lia.
Qed.

Lemma sumBalances_zero (l : list Wallet) :
  Forall (fun x => wallet_balance x = 0) l -> sumBalances l = 0.
Proof.
  unfold sumBalances. induction 1 as [|x l Hx _ IH]; simpl; [reflexivity|]. lia.
Qed.





Lemma extends_totalBalance (s s' : Store) :
  extends s s' -> totalBalance s' = totalBalance s.
Proof.
  intros (_ & _ & _ & extra & Hw & Hz).
  change (sumBalances (wallets s') = sumBalances (wallets s)).
  rewrite Hw, sumBalances_app, (sumBalances_zero _ Hz). lia.
Qed.



(** ** The supply of one asset type *)

Lemma NoDup_ids_find (ws : list Wallet) (x : Wallet) :
  NoDup (map wallet_id ws) -> In x ws ->
  find (Prisma.walletHasId (wallet_id x)) ws = Some x.
Proof.
  induction ws as [|y l IH]; simpl; intros Hnd Hin; [destruct Hin|].
  inversion Hnd as [|? ? Hy Hl]; subst.
  unfold Prisma.walletHasId at 1.
  destruct (String.eqb_spec (wallet_id y) (wallet_id x)) as [E|N].
  - destruct Hin as [->|Hin]; [reflexivity|].
    exfalso. apply Hy. rewrite E. now apply in_map.
  - destruct Hin as [->|Hin]; [congruence|]. now apply IH.
Qed.

Lemma find_hasUserAndAssetType (u a : string) (ws : list Wallet) (x : Wallet) :
  find (Prisma.walletHasUserAndAssetType u a) ws = Some x ->
  In x ws /\ wallet_userId x = u /\ wallet_assetTypeId x = a.
Proof.
  intros H. apply find_some in H as [Hin Hp].
  unfold Prisma.walletHasUserAndAssetType in Hp.
  apply andb_true_iff in Hp as [Hu Ha].
  apply String.eqb_eq in Hu, Ha. auto.
Qed.





Lemma seeded_Integrity : Integrity Scenario.seeded.
Proof.
  constructor; simpl;
    repeat (constructor; simpl);
    try (intros H; repeat destruct H as [H|H]; try discriminate; assumption);
    reflexivity.
Qed.



(** X3: the three operations keep the constraints of the schema: from a
    database where wallet ids, (user, asset type) pairs and ledger ids are
    unique and every wallet and ledger entry refers to rows that exist,
    every sequence of calls leads to such a database. *)
Theorem calls_keep_integrity (calls : list Call) (w : World) :
  Integrity (store w) -> Integrity (store (after calls w)).
Proof.
  revert w. induction calls as [|c rest IH]; simpl; intros w H; [assumption|].
  apply IH. destruct (perform c w) as [r w'] eqn:Hc.
  exact (keeps_Integrity_perform c w r w' H Hc).
Qed.

Lemma calls_keep_integrity_witness :
  let calls :=
    [TopUp "u-alice" "GOLD" (Scenario.units 100) (Some "order-1");
     IssueBonus "u-alice" "GOLD" (Scenario.units 5) None (Some "order-1");
     Spend "u-ghost" "GOLD" (Scenario.units 1) (Some "item") None] in
  Integrity (store Scenario.world) /\
  Integrity (store (after calls Scenario.world)) /\
  List.length (wallets (store (after calls Scenario.world))) = 2%nat /\
  List.length (transactions (store (after calls Scenario.world))) = 1%nat.
Proof.
  intros calls.
  split; [exact seeded_Integrity|].
  split; [exact (calls_keep_integrity calls Scenario.world seeded_Integrity)|].
  split; vm_compute; reflexivity.
Defined.

(** ** Balances never go below zero *)







(** ** Idempotency keys *)

Lemma idempotencyKeys_app (l1 l2 : list Transaction) :
  idempotencyKeys (l1 ++ l2) = (idempotencyKeys l1 ++ idempotencyKeys l2)%list.
Proof. apply flat_map_app. Qed.

Lemma find_hasIdempotencyKey_None (key : string) (ts : list Transaction) :
  find (Prisma.hasIdempotencyKey key) ts = None -> ~ In key (idempotencyKeys ts).
Proof.
  intros H Hin. unfold idempotencyKeys in Hin.
  apply in_flat_map in Hin as (t & Ht & Hk).
  pose proof (find_none _ _ H t Ht) as Hf.
  unfold Prisma.hasIdempotencyKey in Hf.
  destruct (metadata t) as [m|]; [|destruct Hk].
  destruct Hk as [<-|[]]. now rewrite String.eqb_refl in Hf.
Qed.

Lemma perform_keys (c : Call) (w : World) :
  NoDup (idempotencyKeys (transactions (store w))) ->
  NoDup (idempotencyKeys (transactions (store (snd (perform c w))))).
Proof.
  intros H. destruct (perform c w) as [r w'] eqn:Hc. simpl.
  apply perform_cases in Hc
    as [(e & _ & _ & ->) | (Hhit & [(e & _ & Hext) | (t & _ & HT & _ & Hm)])].
  - assumption.
  - destruct Hext as (_ & _ & -> & _). assumption.
  - rewrite (transferred_ledger _ _ _ HT), idempotencyKeys_app.
    unfold idempotencyKeys at 2. simpl. rewrite Hm, app_nil_r.
    unfold hit in Hhit. unfold TransactionService.metadataOf.
    destruct (keyOf c) as [k|]; [|now rewrite app_nil_r].
    destruct (truthy (Some k)); [|now rewrite app_nil_r].
    apply NoDup_snoc; [assumption|]. now apply find_hasIdempotencyKey_None.
Qed.

(** X5: no idempotency key is ever recorded twice: if the keys held by the
    ledger are pairwise different, they are so after any sequence of calls
    of [topUp], [issueBonus] and [spend], with or without keys, fresh or
    used. *)
Theorem calls_keep_idempotency_keys_unique (calls : list Call) (w : World) :
  NoDup (idempotencyKeys (transactions (store w))) ->
  NoDup (idempotencyKeys (transactions (store (after calls w)))).
Proof.
  revert w. induction calls as [|c rest IH]; simpl; intros w H; [assumption|].
  apply IH. now apply perform_keys.
Qed.

(** ** A refused request *)

Lemma extends_balanceOf (s s' : Store) (id : string) :
  extends s s' -> balanceOf s' id = balanceOf s id.
Proof.
  intros (_ & _ & _ & extra & Hw & Hz).
  unfold balanceOf, findWallet. rewrite Hw, find_app.
  destruct (find (Prisma.walletHasId id) (wallets s)) as [x|]; [reflexivity|].
  destruct (find (Prisma.walletHasId id) extra) as [x|] eqn:F; [|reflexivity].
  apply find_some in F as [Hin _]. rewrite Forall_forall in Hz. now apply Hz.
Qed.

(** X6: a top-up, bonus or spend request answered with a 400 has changed
    nothing a client can see: the ledger, the users, the asset types and the
    balance of every wallet are as before the request (at most zero-balance
    wallets were created). *)
Theorem refused_request_leaves_no_trace (q : Request) (w w' : World) (error : string) :
  handle q w = (Routes.BadRequest error, w') ->
  transactions (store w') = transactions (store w) /\
  users (store w') = users (store w) /\
  assetTypes (store w') = assetTypes (store w) /\
  totalBalance (store w') = totalBalance (store w) /\
  forall id, balanceOf (store w') id = balanceOf (store w) id.
Proof.
  intros H.
  assert (Hext : w' = w \/ extends (store w) (store w')).
  { destruct (handle_cases q w) as [(e & E) | (c & u & a & d & _ & E)];
      rewrite E in H.
    - left. now inversion H.
    - unfold Routes.respond in H.
      destruct (perform c w) as [[t|e] w1] eqn:Hc; inversion H; subst.
      apply perform_cases in Hc
        as [(e0 & _ & _ & ->) | (_ & [(e0 & _ & Hext) | (t & Hr & _)])].
      + now left.
      + now right.
      + discriminate. }
  destruct Hext as [->|Hext]; [repeat split; reflexivity|].
  pose proof (extends_totalBalance _ _ Hext) as Htot.
  destruct Hext as (Hu & Ha & Ht & Hw).
  repeat split; try assumption.
  intros id. apply extends_balanceOf. unfold extends. auto.
Qed.



(** A top-up with a key, a purchase that replays it, a purchase with a key
    of its own. *)
Lemma calls_keep_idempotency_keys_unique_witness :
  let calls :=
    [TopUp "u-alice" "GOLD" (Scenario.units 100) (Some "order-1");
     Spend "u-alice" "GOLD" (Scenario.units 30) None (Some "order-1");
     Spend "u-alice" "GOLD" (Scenario.units 30) None (Some "order-2")] in
  NoDup (idempotencyKeys (transactions (store Scenario.world))) /\
  NoDup (idempotencyKeys (transactions (store (after calls Scenario.world)))) /\
  idempotencyKeys (transactions (store (after calls Scenario.world))) =
    ["order-1"; "order-2"].
Proof.
  intros calls.
  assert (H : NoDup (idempotencyKeys (transactions (store Scenario.world))))
    by (simpl; constructor).
  split; [exact H|].
  split; [exact (calls_keep_idempotency_keys_unique calls Scenario.world H)|].
  vm_compute; reflexivity.
Defined.

(** Alice holds 50 GOLD and asks for a purchase of 100. *)
Lemma refused_request_leaves_no_trace_witness :
  let q :=
    PostSpend
      (Routes.mkBody (Some "u-alice") (Some "GOLD") (Some (Scenario.units 100))
         (Some "sword") None) in
  handle q Scenario.world = (Routes.BadRequest "Insufficient balance", Scenario.world) /\
  transactions (store Scenario.world) = [] /\
  balanceOf (store Scenario.world) "w-alice-gold" = Scenario.units 50.
Proof.
  intros q.
  assert (H : handle q Scenario.world =
              (Routes.BadRequest "Insufficient balance", Scenario.world))
    by (vm_compute; reflexivity).
  destruct (refused_request_leaves_no_trace q Scenario.world Scenario.world _ H)
    as (Ht & _ & _ & _ & Hb).
  split; [exact H|]. split; [exact Ht | exact (Hb "w-alice-gold")].
Defined.

(** ** A funded call goes through *)








Lemma getOrCreate_run (userId assetTypeId : string) (w : World) (x : Wallet) :
  find (Prisma.walletHasUserAndAssetType userId assetTypeId) (wallets (store w)) = Some x ->
  WalletDbAccess.getOrCreate userId assetTypeId w = (Ok x, w).
Proof.
  intros H. unfold WalletDbAccess.getOrCreate, Prisma.wallet_upsert, await, readStore.
  now rewrite H.
Qed.





(** ** Calls that cannot be applied *)

Lemma engine_unresolved onHit parties kind desc insufficient a amt key (w : World) :
  hit (store w) key = None ->
  find (fun x => assetType_name x === a) (assetTypes (store w)) = None \/
  find (fun u => user_email u === "treasury@wallet.internal") (users (store w)) = None ->
  engine onHit parties kind desc insufficient a amt key w =
  (Err (Error
          match find (fun x => assetType_name x === a) (assetTypes (store w)) with
          | None => "Asset type " ++ a ++ " not found"
          | Some _ => "Treasury account not found"
          end),
   w).
Proof.
  intros Hmiss H.
  unfold engine, await. rewrite lookup_run, Hmiss.
  unfold AssetTypeDbAccess.findByName, Prisma.assetType_findUnique, await,
    readStore, resolve.
  destruct (find (fun x => assetType_name x === a) (assetTypes (store w))) as [x|];
    [|reflexivity].
  destruct H as [H|H]; [discriminate|].
  unfold UserDbAccess.findTreasuryUser, Prisma.user_findUnique, await,
    readStore, resolve.
  now rewrite H.
Qed.

(** X8: a call that names an asset type that does not exist, or that is
    made while the Treasury account is missing, is rejected with "Asset type
    ... not found" or, when the asset type is there, with "Treasury account
    not found"; nothing has been written. *)
Theorem call_without_asset_or_treasury_is_rejected (c : Call) (w : World) :
  hit (store w) (keyOf c) = None ->
  find (fun x => assetType_name x === assetOf c) (assetTypes (store w)) = None \/
  find (fun u => user_email u === "treasury@wallet.internal") (users (store w)) = None ->
  perform c w =
  (Err (Error
          match find (fun x => assetType_name x === assetOf c) (assetTypes (store w)) with
          | None => "Asset type " ++ assetOf c ++ " not found"
          | Some _ => "Treasury account not found"
          end),
   w).
Proof.
  intros Hmiss H.
  destruct c; simpl in *;
    [rewrite topUp_engine | rewrite issueBonus_engine | rewrite spend_engine];
    now apply engine_unresolved.
Qed.

Lemma call_without_asset_or_treasury_witness :
  let c := IssueBonus "u-alice" "SILVER" (Scenario.units 5) None (Some "welcome") in
  hit (store Scenario.world) (keyOf c) = None /\
  perform c Scenario.world =
    (Err (Error "Asset type SILVER not found"), Scenario.world).
Proof.
  intros c.
  assert (Hmiss : hit (store Scenario.world) (keyOf c) = None) by reflexivity.
  split; [exact Hmiss|].
  exact (call_without_asset_or_treasury_is_rejected c Scenario.world Hmiss
           (or_introl eq_refl)).
Defined.

Lemma userOf_party (c : Call) (treasuryUser : User) :
  fst (partiesOf c treasuryUser) = userOf c \/
  snd (partiesOf c treasuryUser) = userOf c.
Proof. destruct c; simpl; auto. Qed.

Lemma Integrity_wallet_user (s : Store) (x : Wallet) :
  Integrity s -> In x (wallets s) ->
  existsb (fun u => user_id u === wallet_userId x) (users s) = true.
Proof.
  intros HI Hin. pose proof (wallet_references _ HI) as H.
  rewrite Forall_forall in H. now apply H.
Qed.

(** X9: nothing is booked for a user that does not exist.  In a database
    that satisfies the constraints of the schema, a call without an
    idempotency hit whose user id is not the id of a user is rejected; the
    ledger and every balance are as before the call. *)
Theorem call_for_unknown_user_is_rejected (c : Call) (w : World) :
  Integrity (store w) ->
  hit (store w) (keyOf c) = None ->
  existsb (fun u => user_id u === userOf c) (users (store w)) = false ->
  exists e w',
    perform c w = (Err e, w') /\
    transactions (store w') = transactions (store w) /\
    forall id, balanceOf (store w') id = balanceOf (store w) id.
Proof.
  intros HI Hmiss Hu.
  destruct (perform c w) as [[t|e] w'] eqn:Hc.
  - exfalso.
    destruct (perform_applied c w t w' Hmiss Hc) as (a0 & tu & _ & _ & _ & Happ).
    destruct Happ as [locked sw rw Hext HIl Fs Fr _ _ _ _ _ _ _ _].
    apply find_hasUserAndAssetType in Fs as (Is & Us & _).
    apply find_hasUserAndAssetType in Fr as (Ir & Ur & _).
    pose proof (Integrity_wallet_user _ _ (HIl HI) Is) as Es.
    pose proof (Integrity_wallet_user _ _ (HIl HI) Ir) as Er.
    destruct Hext as (Husers & _). rewrite Husers in Es, Er.
    destruct (userOf_party c tu) as [E|E];
      [rewrite Us, E in Es | rewrite Ur, E in Er]; congruence.
  - exists e, w'. split; [reflexivity|].
    apply perform_cases in Hc
      as [(e0 & He & _) | (_ & [(e0 & _ & Hext) | (t & Et & _)])];
      [congruence | | discriminate].
    split; [apply Hext | intros id; now apply extends_balanceOf].
Qed.

Lemma call_for_unknown_user_witness :
  let c := TopUp "u-ghost" "GOLD" (Scenario.units 10) None in
  exists e w',
    perform c Scenario.world = (Err e, w') /\
    transactions (store w') = [] /\
    balanceOf (store w') "w-treasury-gold" = Scenario.units 1000000.
Proof.
  intros c.
  destruct (call_for_unknown_user_is_rejected c Scenario.world
              seeded_Integrity eq_refl eq_refl) as (e & w' & E & Hl & Hb).
  exists e, w'. split; [exact E|]. split; [exact Hl | exact (Hb "w-treasury-gold")].
Defined.

(** ** [getOrCreate] *)

Lemma findByUserAndAssetType_run (userId assetTypeId : string) (w : World) :
  WalletDbAccess.findByUserAndAssetType userId assetTypeId w =
  (Ok (find (Prisma.walletHasUserAndAssetType userId assetTypeId) (wallets (store w))), w).
Proof. reflexivity. Qed.

(** X10: [getOrCreate] gets or creates, once.  When it resolves to a wallet,
    the wallet is the one of the user and the asset type; looking it up
    afterwards finds it and a second [getOrCreate] resolves to it and
    changes nothing.  If the wallet was there the database is unchanged; if
    it was not, it has been added with balance 0 and nothing else has
    changed. *)
Theorem getOrCreate_gets_or_creates_once (userId assetTypeId : string)
    (w : World) (x : Wallet) (w' : World) :
  WalletDbAccess.getOrCreate userId assetTypeId w = (Ok x, w') ->
  wallet_userId x = userId /\
  wallet_assetTypeId x = assetTypeId /\
  WalletDbAccess.findByUserAndAssetType userId assetTypeId w' = (Ok (Some x), w') /\
  WalletDbAccess.getOrCreate userId assetTypeId w' = (Ok x, w') /\
  (WalletDbAccess.findByUserAndAssetType userId assetTypeId w = (Ok (Some x), w) /\
   w' = w
   \/
   WalletDbAccess.findByUserAndAssetType userId assetTypeId w = (Ok None, w) /\
   wallet_balance x = 0 /\
   store w' = set_wallets (store w) (wallets (store w) ++ [x])).
Proof.
  intros H.
  pose proof (getOrCreate_found _ _ _ _ _ H) as F.
  pose proof (find_hasUserAndAssetType _ _ _ _ F) as (_ & Hu & Ha).
  split; [exact Hu|]. split; [exact Ha|].
  split; [rewrite findByUserAndAssetType_run, F; reflexivity|].
  split; [now apply getOrCreate_run|].
  rewrite findByUserAndAssetType_run.
  unfold WalletDbAccess.getOrCreate, Prisma.wallet_upsert, await, readStore in H.
  destruct (find (Prisma.walletHasUserAndAssetType userId assetTypeId)
              (wallets (store w))) as [y|] eqn:Fw.
  - left. inversion H; subst. auto.
  - right. split; [reflexivity|].
    apply wallet_create_inv in H as [(e & He & _) | (x' & Hx & Hb & _ & Hs)];
      [discriminate|].
    inversion Hx; subst x'. auto.
Qed.

(** The first purchase of a user without a wallet would create one: here the
    Treasury's own wallet is found, and a second user's is created. *)
Lemma getOrCreate_gets_or_creates_once_witness :
  let bob := mkUser "u-bob" "bob@example.com" "Bob" in
  let w :=
    mkWorld
      (mkStore (users Scenario.seeded ++ [bob]) (assetTypes Scenario.seeded)
         (wallets Scenario.seeded) [])
      Scenario.ids in
  let x := mkWallet "row-0" "u-bob" "a-gold" 0 in
  let w' :=
    mkWorld (set_wallets (store w) (wallets (store w) ++ [x]))
      (fun n => Scenario.ids (S n)) in
  WalletDbAccess.getOrCreate "u-bob" "a-gold" w = (Ok x, w') /\
  WalletDbAccess.getOrCreate "u-bob" "a-gold" w' = (Ok x, w') /\
  WalletDbAccess.findByUserAndAssetType "u-bob" "a-gold" w' = (Ok (Some x), w').
Proof.
  intros bob w x w'.
  assert (H : WalletDbAccess.getOrCreate "u-bob" "a-gold" w = (Ok x, w'))
    by reflexivity.
  destruct (getOrCreate_gets_or_creates_once "u-bob" "a-gold" w x w' H)
    as (_ & _ & Hfind & Hagain & _).
  split; [exact H|]. split; [exact Hagain | exact Hfind].
Defined.

(** ** The read paths *)

Ltac read_only :=
  repeat
    match goal with
    | |- readOnly (await _ _) => apply readOnly_await; [|intro]
    | |- readOnly (resolve _) => apply readOnly_resolve
    | |- readOnly (throw _) => apply readOnly_throw
    | |- readOnly readStore => apply readOnly_readStore
    | |- readOnly (match ?x with _ => _ end) => destruct x
    end.

Lemma readOnly_included (withUser : bool) (x : Wallet) :
  readOnly (Prisma.included withUser x).
Proof. unfold Prisma.included, Prisma.inconsistent. read_only. Qed.

Lemma readOnly_forEach {A B} (f : A -> Promise B) (rows : list A) :
  (forall r, readOnly (f r)) -> readOnly (Prisma.forEach f rows).
Proof.
  intros Hf. induction rows as [|r rest IH]; simpl; read_only; auto.
Qed.

Lemma readOnly_includedWallets (t : Transaction) :
  readOnly (Prisma.includedWallets t).
Proof.
  unfold Prisma.includedWallets, Prisma.inconsistent.
  read_only; apply readOnly_included.
Qed.

Lemma readOnly_page {A} (take skip : Z) (ordered : list A) :
  readOnly (Prisma.page take skip ordered).
Proof. unfold Prisma.page. read_only. Qed.

Lemma readOnly_getTransactionHistory (userId : string) (limit skip : option Z) :
  readOnly (TransactionService.getTransactionHistory userId limit skip).
Proof.
  unfold TransactionService.getTransactionHistory,
    WalletDbAccess.getWalletIdsByUserId, Prisma.wallet_findMany_userId,
    TransactionDbAccess.findByWalletIds, Prisma.transaction_findMany.
  read_only.
  - apply readOnly_page.
  - apply readOnly_forEach, readOnly_includedWallets.
Qed.

Lemma readOnly_getWalletById (walletId : string) :
  readOnly (WalletService.getWalletById walletId).
Proof.
  unfold WalletService.getWalletById, WalletDbAccess.findById,
    Prisma.wallet_findUnique.
  read_only. apply readOnly_included.
Qed.

Lemma readOnly_getUserWallets (userId : string) :
  readOnly (WalletService.getUserWallets userId).
Proof.
  unfold WalletService.getUserWallets, WalletDbAccess.findByUserId,
    Prisma.wallet_findMany_userId.
  read_only. apply readOnly_forEach. intros r. apply readOnly_included.
Qed.

Lemma readOnly_getAllUsers : readOnly UserService.getAllUsers.
Proof.
  unfold UserService.getAllUsers, UserDbAccess.findAllUsers, Prisma.user_findMany.
  read_only.
Qed.

Lemma answer_world {A B} (render : A -> B) (r : Result A * World) :
  snd (Routes.answer render r) = snd r.
Proof. destruct r as [[a|e] w]; reflexivity. Qed.

Lemma getBalance_extends (userId assetTypeName : string) (w : World) :
  extends (store w) (store (snd (WalletService.getBalance userId assetTypeName w))).
Proof.
  unfold WalletService.getBalance, await.
  unfold AssetTypeDbAccess.findByName, Prisma.assetType_findUnique, await,
    readStore, resolve.
  destruct (find _ (assetTypes (store w))) as [a|]; [|apply extends_refl].
  rewrite findByUserAndAssetType_run.
  destruct (find _ (wallets (store w))) as [x|].
  - rewrite readOnly_included. apply extends_refl.
  - destruct (WalletDbAccess.getOrCreate userId (assetType_id a) w) as [[x|e] w1] eqn:E;
      apply getOrCreate_spec in E as [Hext _].
    + rewrite readOnly_included. exact Hext.
    + exact Hext.
Qed.

(** X11: no GET request books anything.  Whatever it answers, the ledger,
    the sum of all balances and the balance of every wallet are as before;
    every GET request except the balance of a user in an asset type, which
    may create the wallet it reports, leaves the database exactly as it
    was. *)
Theorem queries_book_nothing (q : Query) (w : World) :
  transactions (store (asked q w)) = transactions (store w) /\
  totalBalance (store (asked q w)) = totalBalance (store w) /\
  (forall id, balanceOf (store (asked q w)) id = balanceOf (store w) id) /\
  ((forall userId assetType, q <> GetUserBalance userId assetType) -> asked q w = w).
Proof.
  assert (Hext : extends (store w) (store (asked q w)) /\
                 ((forall userId assetType, q <> GetUserBalance userId assetType) ->
                  asked q w = w)).
  { destruct q as [|walletId|userId assetType|userId|userId limit skip];
      unfold asked, Routes.getUsers, Routes.getWalletBalance, Routes.getUserBalance,
        Routes.getUserWallets, Routes.getHistory;
      rewrite answer_world.
    - rewrite readOnly_getAllUsers. split; [apply extends_refl | reflexivity].
    - rewrite readOnly_getWalletById. split; [apply extends_refl | reflexivity].
    - split; [apply getBalance_extends|].
      intros H. now destruct (H userId assetType).
    - rewrite readOnly_getUserWallets. split; [apply extends_refl | reflexivity].
    - rewrite readOnly_getTransactionHistory.
      split; [apply extends_refl | reflexivity]. }
  destruct Hext as [Hext Hsame].
  split; [apply Hext|].
  split; [now apply extends_totalBalance|].
  split; [intros id; now apply extends_balanceOf | exact Hsame].
Qed.

(** ** Rows with the rows they refer to *)

Lemma existsb_find_some {A} (p : A -> bool) (l : list A) :
  existsb p l = true -> exists x, find p l = Some x.
Proof.
  rewrite find_existsb. destruct (find p l) as [x|]; [eauto | discriminate].
Qed.

Lemma included_run (withUser : bool) (x : Wallet) (w : World) :
  Integrity (store w) -> In x (wallets (store w)) ->
  exists r,
    Prisma.included withUser x w = (Ok r, w) /\
    Prisma.included_wallet r = x /\
    assetType_id (Prisma.included_assetType r) = wallet_assetTypeId x.
Proof.
  intros HI Hin.
  pose proof (wallet_references _ HI) as H. rewrite Forall_forall in H.
  destruct (H x Hin) as [Hu Ha].
  apply existsb_find_some in Hu as [u Hu].
  apply existsb_find_some in Ha as [a Ha].
  unfold Prisma.included, await, readStore, resolve. rewrite Ha.
  pose proof (find_some _ _ Ha) as [_ Ea]. apply String.eqb_eq in Ea.
  destruct withUser; [rewrite Hu|]; eexists; simpl; eauto.
Qed.

Lemma includedWallets_run (t : Transaction) (w : World) :
  Integrity (store w) -> In t (transactions (store w)) ->
  exists r,
    Prisma.includedWallets t w = (Ok r, w) /\ Prisma.included_transaction r = t.
Proof.
  intros HI Hin.
  pose proof (transaction_references _ HI) as H. rewrite Forall_forall in H.
  destruct (H t Hin) as [Hs Hr].
  apply existsb_find_some in Hs as [sw Hs].
  apply existsb_find_some in Hr as [rw Hr].
  unfold Prisma.includedWallets, await, readStore. rewrite Hs, Hr.
  destruct (included_run true sw w HI (proj1 (find_some _ _ Hs))) as (rs & Es & _).
  destruct (included_run true rw w HI (proj1 (find_some _ _ Hr))) as (rr & Er & _).
  rewrite Es, Er. eexists. split; reflexivity.
Qed.

Lemma forEach_includedWallets_run (rows : list Transaction) (w : World) :
  Integrity (store w) ->
  (forall t, In t rows -> In t (transactions (store w))) ->
  exists out,
    Prisma.forEach Prisma.includedWallets rows w = (Ok out, w) /\
    map Prisma.included_transaction out = rows.
Proof.
  intros HI. induction rows as [|t rest IH]; intros Hin; simpl.
  - exists []. split; reflexivity.
  - destruct (includedWallets_run t w HI (Hin t (or_introl eq_refl))) as (r & Er & Et).
    destruct IH as (out & Eout & Emap); [intros; apply Hin; now right|].
    exists (r :: out). unfold await, resolve. rewrite Er, Eout.
    split; [reflexivity | simpl; congruence].
Qed.

Lemma In_firstn {A} (n : nat) (l : list A) (x : A) : In x (firstn n l) -> In x l.
Proof.
  revert l. induction n as [|n IH]; intros [|y l]; simpl; try tauto.
  intros [H|H]; auto.
Qed.

Lemma In_skipn {A} (n : nat) (l : list A) (x : A) : In x (skipn n l) -> In x l.
Proof.
  revert l. induction n as [|n IH]; intros [|y l]; simpl; auto.
Qed.

Lemma walletIdsOf_In (s : Store) (userId id : string) :
  In id (walletIdsOf s userId) <->
  exists x, In x (wallets s) /\ wallet_userId x = userId /\ wallet_id x = id.
Proof.
  unfold walletIdsOf. rewrite in_map_iff. split.
  - intros (x & E & Hx). apply filter_In in Hx as [Hin Hu].
    apply String.eqb_eq in Hu. eauto.
  - intros (x & Hin & Hu & E). exists x. split; [assumption|].
    apply filter_In. split; [assumption|]. now apply String.eqb_eq.
Qed.

Lemma entriesOf_In (s : Store) (userId : string) (t : Transaction) :
  In t (entriesOf s (walletIdsOf s userId)) <->
  In t (transactions s) /\ involves s userId t.
Proof.
  unfold entriesOf. rewrite <- in_rev, filter_In, orb_true_iff. split.
  - intros [Hin [H|H]]; (split; [assumption|]);
      apply (proj1 (existsb_eqb_In _ _)) in H;
      apply (proj1 (walletIdsOf_In _ _ _)) in H as (x & Hx & Hu & E);
      exists x; auto.
  - intros [Hin (x & Hx & Hu & [E|E])]; (split; [assumption|]); [left|right];
      apply (proj2 (existsb_eqb_In _ _));
      apply (proj2 (walletIdsOf_In _ _ _)); eauto.
Qed.

Lemma getTransactionHistory_run (userId : string) (limit skip : Z) (w : World) :
  Integrity (store w) -> 0 <= limit -> 0 <= skip ->
  exists rows,
    TransactionService.getTransactionHistory userId (Some limit) (Some skip) w =
      (Ok rows, w) /\
    map Prisma.included_transaction rows =
      firstn (Z.to_nat limit)
        (skipn (Z.to_nat skip) (entriesOf (store w) (walletIdsOf (store w) userId))).
Proof.
  intros HI Hlimit Hskip.
  unfold TransactionService.getTransactionHistory,
    WalletDbAccess.getWalletIdsByUserId, Prisma.wallet_findMany_userId,
    TransactionDbAccess.findByWalletIds, Prisma.transaction_findMany,
    Prisma.page.
  unfold await at 1. unfold await at 1. unfold readStore at 1, resolve at 1.
  unfold await at 1. unfold readStore at 1.
  replace (skip <? 0) with false by (symmetry; apply Z.ltb_ge; lia).
  replace (limit <? 0) with false by (symmetry; apply Z.ltb_ge; lia).
  unfold await at 1. unfold resolve at 1.
  fold (walletIdsOf (store w) userId).
  fold (entriesOf (store w) (walletIdsOf (store w) userId)).
  apply forEach_includedWallets_run; [assumption|].
  intros t Ht. apply In_firstn, In_skipn in Ht.
  now apply entriesOf_In in Ht.
Qed.

(** X12: the history of a user.  In a database that satisfies the
    constraints of the schema, [getTransactionHistory] with a limit and a
    skip that are not negative resolves and changes nothing; it resolves to
    at most [limit] entries, each of them an entry of the ledger that has a
    wallet of the user as its sender or its receiver; they are the entries
    of the user's wallets from the newest on, without the first [skip]. *)
Theorem history_lists_entries_of_the_user (userId : string) (limit skip : Z) (w : World) :
  Integrity (store w) -> 0 <= limit -> 0 <= skip ->
  exists rows,
    TransactionService.getTransactionHistory userId (Some limit) (Some skip) w =
      (Ok rows, w) /\
    (List.length rows <= Z.to_nat limit)%nat /\
    (forall r, In r rows ->
       In (Prisma.included_transaction r) (transactions (store w)) /\
       involves (store w) userId (Prisma.included_transaction r)) /\
    map Prisma.included_transaction rows =
      firstn (Z.to_nat limit)
        (skipn (Z.to_nat skip) (entriesOf (store w) (walletIdsOf (store w) userId))).
Proof.
  intros HI Hlimit Hskip.
  destruct (getTransactionHistory_run userId limit skip w HI Hlimit Hskip)
    as (rows & E & Hmap).
  exists rows. split; [exact E|].
  split; [|split; [|exact Hmap]].
  - rewrite <- (length_map Prisma.included_transaction), Hmap.
    apply firstn_le_length.
  - intros r Hr. apply entriesOf_In.
    apply (In_skipn (Z.to_nat skip)), (In_firstn (Z.to_nat limit)).
    rewrite <- Hmap. now apply in_map.
Qed.

Lemma toppedUp_Integrity : Integrity (store Scenario.toppedUp).
Proof.
  apply (keeps_Integrity_perform
           (TopUp "u-alice" "GOLD" (Scenario.units 100) (Some "order-1"))
           Scenario.world
           (fst (TransactionService.topUp "u-alice" "GOLD" (Scenario.units 100)
                   (Some "order-1") Scenario.world)));
    [exact seeded_Integrity | apply surjective_pairing].
Qed.

(** After her top-up of 100 GOLD, Alice's history is that one deposit; so is
    the Treasury's. *)
Lemma history_lists_entries_of_the_user_witness :
  exists rows,
    TransactionService.getTransactionHistory "u-alice" (Some 10) (Some 0)
      Scenario.toppedUp = (Ok rows, Scenario.toppedUp) /\
    map Prisma.included_transaction rows = [Scenario.deposit].
Proof.
  assert (Hlimit : 0 <= 10) by lia.
  assert (Hskip : 0 <= 0) by lia.
  destruct (history_lists_entries_of_the_user "u-alice" 10 0 Scenario.toppedUp
              toppedUp_Integrity Hlimit Hskip) as (rows & E & _ & _ & Hmap).
  exists rows. split; [exact E|]. rewrite Hmap. vm_compute. reflexivity.
Defined.

Lemma filter_map_updateFirst {A B} (g : A -> B) (q p : A -> bool) (f : A -> A)
    (l : list A) :
  (forall x, g (f x) = g x) -> (forall x, q (f x) = q x) ->
  map g (filter q (updateFirst p f l)) = map g (filter q l).
Proof.
  intros Hg Hq. induction l as [|x l IH]; simpl; [reflexivity|].
  destruct (p x); simpl.
  - rewrite Hq. destruct (q x); simpl; [now rewrite Hg | reflexivity].
  - destruct (q x); simpl; now rewrite IH.
Qed.

Lemma walletIdsOf_moved (userId sid rid : string) (amt : Z) (ws : list Wallet) :
  map wallet_id
    (filter (fun x => wallet_userId x === userId) (credited rid amt (debited sid amt ws))) =
  map wallet_id (filter (fun x => wallet_userId x === userId) ws).
Proof.
  unfold credited.
  destruct (find (Prisma.walletHasId rid) (debited sid amt ws)) as [y|];
    [rewrite filter_map_updateFirst by reflexivity|];
    unfold debited;
    (destruct (find (Prisma.walletHasId sid) ws) as [x|];
     [now rewrite filter_map_updateFirst by reflexivity | reflexivity]).
Qed.

Lemma extends_walletIdsOf (s s' : Store) (userId id : string) :
  extends s s' -> In id (walletIdsOf s userId) -> In id (walletIdsOf s' userId).
Proof.
  intros (_ & _ & _ & extra & Hw & _). unfold walletIdsOf.
  rewrite Hw, filter_app, map_app, in_app_iff. auto.
Qed.

(** X13: a booked transfer is the first thing its user sees.  In a database
    that satisfies the constraints of the schema, once a call has been
    applied, the history of the user of the call (with the default limit and
    skip) resolves, and its first entry is the entry the call resolved
    to. *)
Theorem applied_call_heads_the_history (c : Call) (w : World) (t : Transaction)
    (w' : World) :
  Integrity (store w) ->
  hit (store w) (keyOf c) = None ->
  perform c w = (Ok t, w') ->
  exists r rest,
    TransactionService.getTransactionHistory (userOf c) None None w' =
      (Ok (r :: rest), w') /\
    Prisma.included_transaction r = t.
Proof.
  intros HI Hmiss Hc.
  pose proof (keeps_Integrity_perform c w _ _ HI Hc) as HI'.
  assert (H50 : 0 <= 50) by lia. assert (H0 : 0 <= 0) by lia.
  destruct (getTransactionHistory_run (userOf c) 50 0 w' HI' H50 H0)
    as (rows & E & Hmap).
  change (TransactionService.getTransactionHistory (userOf c) None None w')
    with (TransactionService.getTransactionHistory (userOf c) (Some 50) (Some 0) w').
  rewrite E.
  destruct (perform_applied c w t w' Hmiss Hc) as (a0 & tu & _ & _ & _ & Happ).
  destruct Happ as [locked sw rw Hext _ Fs Fr Es Er _ _ _ _ _ Hs'].
  assert (Hin : In (senderWalletId t) (walletIdsOf (store w') (userOf c)) \/
                In (receiverWalletId t) (walletIdsOf (store w') (userOf c))).
  { unfold walletIdsOf. rewrite Hs'. simpl. rewrite walletIdsOf_moved.
    apply find_hasUserAndAssetType in Fs as (Is & Us & _).
    apply find_hasUserAndAssetType in Fr as (Ir & Ur & _).
    destruct (userOf_party c tu) as [Eu|Eu]; [left|right];
      apply (proj2 (walletIdsOf_In locked _ _)); [exists sw | exists rw];
      (split; [assumption | split; congruence]). }
  assert (Hhead : exists older,
             entriesOf (store w') (walletIdsOf (store w') (userOf c)) = t :: older).
  { assert (Et : transactions (store w') = (transactions locked ++ [t])%list)
      by (rewrite Hs'; reflexivity).
    unfold entriesOf. rewrite Et, filter_app, rev_app_distr. simpl filter.
    assert (Ep : existsb (String.eqb (senderWalletId t))
                   (walletIdsOf (store w') (userOf c))
                 || existsb (String.eqb (receiverWalletId t))
                      (walletIdsOf (store w') (userOf c)) = true).
    { apply orb_true_iff.
      destruct Hin as [H|H]; [left|right]; now apply existsb_eqb_In. }
    rewrite Ep. simpl. eexists. reflexivity. }
  destruct Hhead as (older & Hhead). rewrite Hhead in Hmap.
  change (Z.to_nat 50) with 50%nat in Hmap. change (Z.to_nat 0) with 0%nat in Hmap.
  simpl skipn in Hmap. rewrite firstn_cons in Hmap.
  destruct rows as [|r rest]; [discriminate|].
  simpl in Hmap. inversion Hmap. exists r, rest. split; reflexivity.
Qed.

Lemma applied_call_heads_the_history_witness :
  exists r rest,
    TransactionService.getTransactionHistory "u-alice" None None Scenario.toppedUp =
      (Ok (r :: rest), Scenario.toppedUp) /\
    Prisma.included_transaction r = Scenario.deposit.
Proof.
  assert (Hc : perform (TopUp "u-alice" "GOLD" (Scenario.units 100) (Some "order-1"))
                 Scenario.world = (Ok Scenario.deposit, Scenario.toppedUp))
    by (vm_compute; reflexivity).
  exact (applied_call_heads_the_history
           (TopUp "u-alice" "GOLD" (Scenario.units 100) (Some "order-1"))
           Scenario.world Scenario.deposit Scenario.toppedUp
           seeded_Integrity eq_refl Hc).
Defined.

(** ** The balance endpoints *)

(** X14: GET /wallets/:walletId/balance reports the balance.  In a database
    that satisfies the constraints of the schema the request changes
    nothing; for an id that is not the id of a wallet the answer is the
    error "Wallet with ID ... not found", and for the id of a wallet it is
    the wallet's user, the name of its asset type and its balance, printed
    as a decimal. *)
Theorem wallet_balance_is_reported (walletId : string) (w : World) :
  Integrity (store w) ->
  match findWallet (store w) walletId with
  | None =>
      Routes.getWalletBalance walletId w =
      (Routes.Failure ("Wallet with ID " ++ walletId ++ " not found"), w)
  | Some x =>
      exists a,
        find (fun a => assetType_id a === wallet_assetTypeId x) (assetTypes (store w)) =
          Some a /\
        Routes.getWalletBalance walletId w =
        (Routes.Json
           (Routes.mkWalletBalance walletId (wallet_userId x) (assetType_name a)
              (Routes.decimalToString (balanceOf (store w) walletId))),
         w)
  end.
Proof.
  intros HI.
  assert (Ef : Prisma.wallet_findUnique walletId w =
               (Ok (find (Prisma.walletHasId walletId) (wallets (store w))), w))
    by reflexivity.
  unfold Routes.getWalletBalance, WalletService.getWalletById,
    WalletDbAccess.findById, await.
  rewrite Ef. unfold balanceOf, findWallet.
  destruct (find (Prisma.walletHasId walletId) (wallets (store w))) as [x|] eqn:F;
    [|reflexivity].
  pose proof (find_some _ _ F) as [Hin Hid].
  unfold Prisma.walletHasId in Hid. apply String.eqb_eq in Hid.
  pose proof (wallet_references _ HI) as H. rewrite Forall_forall in H.
  destruct (H x Hin) as [Hu Ha].
  apply existsb_find_some in Hu as [u Hu].
  apply existsb_find_some in Ha as [a Ha].
  exists a. split; [exact Ha|].
  unfold Prisma.included, await, readStore, resolve.
  rewrite Ha, Hu. simpl. now rewrite Hid.
Qed.

Lemma wallet_balance_is_reported_witness :
  Routes.getWalletBalance "w-alice-gold" Scenario.toppedUp =
  (Routes.Json (Routes.mkWalletBalance "w-alice-gold" "u-alice" "GOLD" "150"),
   Scenario.toppedUp).
Proof.
  pose proof (wallet_balance_is_reported "w-alice-gold" Scenario.toppedUp
                toppedUp_Integrity) as H.
  destruct H as (a & Ha & E). rewrite E.
  vm_compute in Ha. inversion Ha. subst a. vm_compute. reflexivity.
Defined.

(** X15: [getBalance] reports the wallet of the user for the asset type.  In
    a database that satisfies the constraints of the schema, when it
    resolves, the wallet it resolves to is the wallet of that user and of the
    asset type of that name, and is in the database afterwards; the balance
    reported is the balance that wallet had before the call, 0 for a wallet
    that the call has created; and the call has at most added that wallet,
    with balance 0. *)
Theorem getBalance_reports_the_users_wallet (userId assetTypeName : string)
    (w : World) (r : Prisma.WalletIncluded) (w' : World) :
  Integrity (store w) ->
  WalletService.getBalance userId assetTypeName w = (Ok r, w') ->
  wallet_userId (Prisma.included_wallet r) = userId /\
  (exists assetType,
      AssetTypeDbAccess.findByName assetTypeName w = (Ok (Some assetType), w) /\
      wallet_assetTypeId (Prisma.included_wallet r) = assetType_id assetType) /\
  assetType_id (Prisma.included_assetType r) =
    wallet_assetTypeId (Prisma.included_wallet r) /\
  wallet_balance (Prisma.included_wallet r) =
    balanceOf (store w) (wallet_id (Prisma.included_wallet r)) /\
  findWallet (store w') (wallet_id (Prisma.included_wallet r)) =
    Some (Prisma.included_wallet r) /\
  extends (store w) (store w').
Proof.
  intros HI H.
  pose proof (getBalance_extends userId assetTypeName w) as Hext.
  rewrite H in Hext. simpl in Hext.
  unfold WalletService.getBalance in H. unfold await at 1 in H.
  assert (Ea : AssetTypeDbAccess.findByName assetTypeName w =
               (Ok (find (fun a => assetType_name a === assetTypeName)
                      (assetTypes (store w))), w)) by reflexivity.
  rewrite Ea in H.
  destruct (find (fun a => assetType_name a === assetTypeName) (assetTypes (store w)))
    as [a|] eqn:Fa; [|discriminate].
  unfold await at 1 in H. rewrite findByUserAndAssetType_run in H.
  destruct (find (Prisma.walletHasUserAndAssetType userId (assetType_id a))
              (wallets (store w))) as [y|] eqn:Fy.
  - pose proof (find_hasUserAndAssetType _ _ _ _ Fy) as (Hin & Hu & Has).
    destruct (included_run true y w HI Hin) as (r0 & E0 & Hw & Hat).
    rewrite E0 in H. inversion H; subst r0 w'. rewrite Hw.
    split; [exact Hu|]. split; [exists a; auto|]. split; [exact Hat|].
    pose proof (NoDup_ids_find _ _ (wallet_ids_unique _ HI) Hin) as Fid.
    split; [unfold balanceOf, findWallet; now rewrite Fid|].
    split; [exact Fid | exact Hext].
  - unfold await at 1 in H.
    destruct (WalletDbAccess.getOrCreate userId (assetType_id a) w)
      as [[x|e] w1] eqn:Eg; [|discriminate].
    pose proof (keeps_Integrity_getOrCreate _ _ _ _ _ HI Eg) as HI1.
    pose proof (getOrCreate_found _ _ _ _ _ Eg) as Fx.
    pose proof (find_hasUserAndAssetType _ _ _ _ Fx) as (Hin & Hu & Has).
    destruct (included_run false x w1 HI1 Hin) as (r0 & E0 & Hw & Hat).
    rewrite E0 in H. inversion H; subst r0 w'. rewrite Hw.
    split; [exact Hu|]. split; [exists a; auto|]. split; [exact Hat|].
    split; [|split; [|exact Hext]].
    + unfold WalletDbAccess.getOrCreate, Prisma.wallet_upsert, await, readStore in Eg.
      rewrite Fy in Eg.
      apply wallet_create_inv in Eg as [(e & He & _) | (x' & Hx & Hb & Hfresh & _)];
        [discriminate|].
      inversion Hx; subst x'. rewrite Hb.
      unfold balanceOf, findWallet. rewrite find_existsb in Hfresh.
      destruct (find (Prisma.walletHasId (wallet_id x)) (wallets (store w)));
        [discriminate | reflexivity].
    + exact (NoDup_ids_find _ _ (wallet_ids_unique _ HI1) Hin).
Qed.

Lemma getBalance_reports_the_users_wallet_witness :
  let x := mkWallet "w-alice-gold" "u-alice" "a-gold" (Scenario.units 150) in
  let r := Prisma.mkWalletIncluded x Scenario.gold (Some Scenario.alice) in
  WalletService.getBalance "u-alice" "GOLD" Scenario.toppedUp =
    (Ok r, Scenario.toppedUp) /\
  wallet_balance x = balanceOf (store Scenario.toppedUp) "w-alice-gold" /\
  findWallet (store Scenario.toppedUp) "w-alice-gold" = Some x.
Proof.
  intros x r.
  assert (H : WalletService.getBalance "u-alice" "GOLD" Scenario.toppedUp =
              (Ok r, Scenario.toppedUp)) by (vm_compute; reflexivity).
  destruct (getBalance_reports_the_users_wallet "u-alice" "GOLD" Scenario.toppedUp
              r Scenario.toppedUp toppedUp_Integrity H)
    as (_ & _ & _ & Hb & Hf & _).
  split; [exact H|]. split; [exact Hb | exact Hf].
Defined.

(** ** Answers of the POST handlers *)

Lemma respond_Created userId assetType withDescription r w data w' :
  Routes.respond userId assetType withDescription (r, w) = (Routes.Created data, w') ->
  exists t,
    r = Ok t /\ w' = w /\
    data =
      Routes.mkData (transaction_id t) userId assetType (amount t)
        (if withDescription then description t else None) (status t).
Proof.
  destruct r as [t|e]; simpl; intros H; inversion H; subst. eauto.
Qed.

(** X16: a request sent again is not booked again.  When a bonus or spend
    request that carries an idempotency key has been answered with 201,
    sending it again is answered with the same 201 and changes nothing; a
    top-up request sent again is answered with the error "Idempotency Key
    Already Exists" and changes nothing. *)
Theorem repeated_request_is_not_booked_again (q : Request) (w : World)
    (data : Routes.Data) (w1 : World) :
  truthy (Routes.body_idempotencyKey (bodyOf q)) = true ->
  handle q w = (Routes.Created data, w1) ->
  handle q w1 =
  (match q with
   | PostTopUp _ => Routes.BadRequest "Idempotency Key Already Exists"
   | _ => Routes.Created data
   end,
   w1).
Proof.
  intros Hkey H.
  destruct q as [body|body|body]; simpl in *;
    unfold Routes.topUp, Routes.bonus, Routes.spend in *;
    destruct (Routes.body_userId body) as [u|]; try discriminate;
    destruct (Routes.body_assetType body) as [a|]; try discriminate;
    destruct (Routes.body_amount body) as [amt|]; try discriminate;
    match type of H with
    | (if ?b then _ else _) = _ => destruct b; [discriminate|]
    end;
    destruct (amt <=? 0); try discriminate;
    match type of H with
    | Routes.respond _ _ _ (?m w) = _ =>
        destruct (m w) as [r w0] eqn:Hc;
        apply respond_Created in H as (t & -> & -> & ->)
    end.
  - pose proof (perform_records_key
                  (TopUp u a amt (Routes.body_idempotencyKey body)) w t w0 Hkey Hc) as Hhit.
    pose proof (perform_hit (TopUp u a amt (Routes.body_idempotencyKey body)) w0 t Hhit)
      as E.
    simpl in E. rewrite E. reflexivity.
  - pose proof (perform_records_key
                  (IssueBonus u a amt (Routes.body_description body)
                     (Routes.body_idempotencyKey body)) w t w0 Hkey Hc) as Hhit.
    pose proof (perform_hit
                  (IssueBonus u a amt (Routes.body_description body)
                     (Routes.body_idempotencyKey body)) w0 t Hhit) as E.
    simpl in E. rewrite E. reflexivity.
  - pose proof (perform_records_key
                  (Spend u a amt (Routes.body_description body)
                     (Routes.body_idempotencyKey body)) w t w0 Hkey Hc) as Hhit.
    pose proof (perform_hit
                  (Spend u a amt (Routes.body_description body)
                     (Routes.body_idempotencyKey body)) w0 t Hhit) as E.
    simpl in E. rewrite E. reflexivity.
Qed.

(** Alice buys a sword for 30 GOLD and, not having seen the answer, asks
    again: she pays once. *)
Lemma repeated_request_is_not_booked_again_witness :
  let q :=
    PostSpend
      (Routes.mkBody (Some "u-alice") (Some "GOLD") (Some (Scenario.units 30))
         (Some "sword") (Some "order-7")) in
  let data :=
    Routes.mkData "row-0" "u-alice" "GOLD" (Scenario.units 30) (Some "sword")
      COMPLETED in
  let w1 := snd (handle q Scenario.world) in
  handle q Scenario.world = (Routes.Created data, w1) /\
  handle q w1 = (Routes.Created data, w1) /\
  balanceOf (store w1) "w-alice-gold" = Scenario.units 20.
Proof.
  intros q data w1.
  assert (Hkey : truthy (Routes.body_idempotencyKey (bodyOf q)) = true) by reflexivity.
  assert (H : handle q Scenario.world = (Routes.Created data, w1))
    by (vm_compute; reflexivity).
  split; [exact H|].
  split; [exact (repeated_request_is_not_booked_again q Scenario.world data w1 Hkey H)|].
  vm_compute; reflexivity.
Defined.

(** X17: a 201 is an entry of the ledger.  From a ledger whose entries are
    all COMPLETED, a top-up, bonus or spend request that is answered with
    201 reports the id and the amount of an entry that is in the ledger when
    the answer is given, and reports it as COMPLETED. *)
Theorem created_answer_is_in_the_ledger (q : Request) (w : World)
    (data : Routes.Data) (w' : World) :
  ledgerCompleted (store w) ->
  handle q w = (Routes.Created data, w') ->
  Routes.data_status data = COMPLETED /\
  exists t,
    In t (transactions (store w')) /\
    transaction_id t = Routes.data_transactionId data /\
    amount t = Routes.data_amount data /\
    status t = COMPLETED.
Proof.
  intros Hl H.
  destruct (handle_cases q w) as [(e & E) | (c & u & a & d & _ & E)];
    rewrite E in H; [discriminate|].
  destruct (perform c w) as [r w0] eqn:Hc.
  apply respond_Created in H as (t & -> & -> & ->).
  destruct (perform_ledger c w _ _ Hl Hc) as (_ & Hok & _).
  destruct (Hok t eq_refl) as [Hst Hin].
  simpl. split; [exact Hst|]. exists t. auto.
Qed.

Lemma created_answer_is_in_the_ledger_witness :
  let q :=
    PostTopUp
      (Routes.mkBody (Some "u-alice") (Some "GOLD") (Some (Scenario.units 100))
         None (Some "order-1")) in
  let data :=
    Routes.mkData "row-0" "u-alice" "GOLD" (Scenario.units 100) None COMPLETED in
  handle q Scenario.world = (Routes.Created data, Scenario.toppedUp) /\
  exists t,
    In t (transactions (store Scenario.toppedUp)) /\
    transaction_id t = "row-0" /\ amount t = Scenario.units 100 /\
    status t = COMPLETED.
Proof.
  intros q data.
  assert (Hl : ledgerCompleted (store Scenario.world)) by constructor.
  assert (H : handle q Scenario.world = (Routes.Created data, Scenario.toppedUp))
    by (vm_compute; reflexivity).
  split; [exact H|].
  exact (proj2 (created_answer_is_in_the_ledger q Scenario.world data
                  Scenario.toppedUp Hl H)).
Defined.

(** ** Looking an entry up by its id *)





(** ** The wallets of a user *)





